(** * nodemcu-uploader: the serial upload/download protocol of [lib/uploader.py]

    A shallow embedding of the [Uploader] class.  Python 2 byte strings are
    lists of 8-bit characters, the serial port and the clock are an explicit
    world that every method threads, and Python exceptions are a result
    constructor. *)

From Stdlib Require Import Ascii String List ZArith Lia Bool Arith.
From Stdlib Require Import DecimalString.
Import ListNotations.

Open Scope Z_scope.

(** ** Python 2 [str] values *)

Module Py.

Definition str := list ascii.

(** A literal without escapes. *)
Definition lit (s : string) : str := list_ascii_of_string s.

Definition chr_of (n : nat) : ascii := ascii_of_nat n.

Definition NUL : ascii := chr_of 0.
Definition SOH : ascii := chr_of 1.
Definition ACK : ascii := chr_of 6.
Definition LF : ascii := chr_of 10.
Definition CR : ascii := chr_of 13.
Definition SP : ascii := chr_of 32.
Definition DQ : ascii := chr_of 34.

Definition len (s : str) : Z := Z.of_nat (length s).

Fixpoint str_eqb (a b : str) : bool :=
  match a, b with
  | [], [] => true
  | x :: a', y :: b' => Ascii.eqb x y && str_eqb a' b'
  | _, _ => false
  end.

(** [chr(i)]: ValueError outside [range(256)]. *)
Definition chr (i : Z) : option ascii :=
  if (0 <=? i) && (i <? 256) then Some (chr_of (Z.to_nat i)) else None.

(** [s[i:j]] for non-negative [i], [j]. *)
Definition slice (s : str) (i j : nat) : str := firstn (j - i) (skipn i s).

(** [s[0:n]] for an arbitrary integer [n]: a negative stop counts from the
    end. *)
Definition slice_to (s : str) (n : Z) : str :=
  if n <? 0 then firstn (Z.to_nat (Z.max 0 (len s + n))) s
  else firstn (Z.to_nat n) s.

(** [s * n] for a one-character [s]. *)
Definition times (c : ascii) (n : nat) : str := repeat c n.

Fixpoint startswith (s p : str) : bool :=
  match p, s with
  | [], _ => true
  | y :: p', x :: s' => Ascii.eqb x y && startswith s' p'
  | _ :: _, [] => false
  end.

Definition endswith (s e : str) : bool :=
  (length e <=? length s)%nat && str_eqb (skipn (length s - length e) s) e.

(** [sub in s]. *)
Fixpoint contains (sub s : str) : bool :=
  startswith s sub ||
  match s with
  | [] => false
  | _ :: s' => contains sub s'
  end.

(** [s.split(sep, maxsplit)] for a one-character separator; [cur] is the
    piece being read, last character first. *)
Fixpoint split_from (sep : ascii) (maxsplit : nat) (cur s : str)
  : list str :=
  match maxsplit with
  | O => [rev cur ++ s]
  | S m =>
      match s with
      | [] => [rev cur]
      | c :: s' =>
          if Ascii.eqb c sep then rev cur :: split_from sep m [] s'
          else split_from sep maxsplit (c :: cur) s'
      end
  end.

Definition split (sep : ascii) (maxsplit : nat) (s : str) : list str :=
  split_from sep maxsplit [] s.

(** [s.splitlines()]: lines end at LF, CR or CR LF; no empty last line. *)
Fixpoint splitlines_from (cur : str) (s : str) : list str :=
  match s with
  | [] => match cur with [] => [] | _ => [rev cur] end
  | c :: s' =>
      if Ascii.eqb c LF then rev cur :: splitlines_from [] s'
      else if Ascii.eqb c CR then
        match s' with
        | d :: s'' =>
            if Ascii.eqb d LF then rev cur :: splitlines_from [] s''
            else rev cur :: splitlines_from [] s'
        | [] => [rev cur]
        end
      else splitlines_from (c :: cur) s'
  end.

Definition splitlines (s : str) : list str := splitlines_from [] s.

(** What follows the last [sep] of [s]; all of [s] when it has none. *)
Fixpoint after_last (sep : ascii) (s : str) : str :=
  match s with
  | [] => []
  | c :: s' =>
      if existsb (Ascii.eqb sep) s' then after_last sep s'
      else if Ascii.eqb c sep then s' else c :: s'
  end.

(** [os.path.basename] of [posixpath]: [p[p.rfind('/')+1:]]. *)
Definition basename (p : str) : str := after_last "/"%char p.

(** [str(n)] and ['%d' % n] for an integer. *)
Definition str_of_int (n : Z) : str := lit (NilZero.string_of_int (Z.to_int n)).

Definition hexdigit (n : nat) : ascii :=
  nth n (lit "0123456789abcdef") "0"%char.

(** [x.encode('hex')] for one character. *)
Definition hex_of_char (c : ascii) : str :=
  let n := nat_of_ascii c in [hexdigit (n / 16); hexdigit (n mod 16)].

(** [s.encode('hex')]. *)
Definition encode_hex (s : str) : str := flat_map hex_of_char s.

(** [':'.join(x.encode('hex') for x in s)]. *)
Fixpoint hex_join (s : str) : str :=
  match s with
  | [] => []
  | [c] => hex_of_char c
  | c :: s' => hex_of_char c ++ ":"%char :: hex_join s'
  end.

Definition isspace (c : ascii) : bool :=
  let n := nat_of_ascii c in
  ((9 <=? n) && (n <=? 13))%nat || (n =? 32)%nat.

Definition digit_val (c : ascii) : option Z :=
  let n := nat_of_ascii c in
  if ((48 <=? n) && (n <=? 57))%nat then Some (Z.of_nat (n - 48)) else None.

Fixpoint lstrip (s : str) : str :=
  match s with
  | c :: s' => if isspace c then lstrip s' else s
  | [] => []
  end.

Definition strip (s : str) : str := rev (lstrip (rev (lstrip s))).

Fixpoint digits_val (acc : Z) (s : str) : option Z :=
  match s with
  | [] => Some acc
  | c :: s' =>
      match digit_val c with
      | Some d => digits_val (10 * acc + d) s'
      | None => None
      end
  end.

(** [int(s)] in base 10: surrounding white space, an optional sign, at
    least one digit; [None] is ValueError. *)
Definition int (s : str) : option Z :=
  match strip s with
  | [] => None
  | c :: r =>
      if Ascii.eqb c "-"%char then
        match r with [] => None | _ => option_map Z.opp (digits_val 0 r) end
      else if Ascii.eqb c "+"%char then
        match r with [] => None | _ => digits_val 0 r end
      else digits_val 0 (c :: r)
  end.

(** [s.encode()] on a byte string: the implicit ASCII decode fails on a
    byte above 127. *)
Definition encode (s : str) : option str :=
  if forallb (fun c => (nat_of_ascii c <? 128)%nat) s then Some s else None.

(** [s.replace(old, new)] for a non-empty [old]: occurrences are taken
    from the left and do not overlap; [skip] characters of an occurrence
    just replaced are still to be passed. *)
Fixpoint replace_from (old new : str) (skip : nat) (s : str) : str :=
  match s with
  | [] => []
  | c :: s' =>
      match skip with
      | S k => replace_from old new k s'
      | O =>
          if startswith s old
          then new ++ replace_from old new (length old - 1) s'
          else c :: replace_from old new 0 s'
      end
  end.

(** [s.replace(old, new)]; an empty [old] matches before every character
    and at the end. *)
Definition replace (old new s : str) : str :=
  match old with
  | [] => new ++ flat_map (fun c => c :: new) s
  | _ => replace_from old new 0 s
  end.

(** [s.split(sep)] without a limit, for a one-character separator. *)
Fixpoint split_all_from (sep : ascii) (cur s : str) : list str :=
  match s with
  | [] => [rev cur]
  | c :: s' =>
      if Ascii.eqb c sep then rev cur :: split_all_from sep [] s'
      else split_all_from sep (c :: cur) s'
  end.

Definition split_all (sep : ascii) (s : str) : list str :=
  split_all_from sep [] s.

(** [s.rstrip(chars)], on the reversed string. *)
Fixpoint lstrip_chars (chars s : str) : str :=
  match s with
  | c :: s' =>
      if existsb (Ascii.eqb c) chars then lstrip_chars chars s' else s
  | [] => []
  end.

Definition rstrip_chars (chars s : str) : str :=
  rev (lstrip_chars chars (rev s)).

(** The lines a text file yields when iterated: each one with its
    newline, the last one possibly without. *)
Fixpoint lines_from (cur s : str) : list str :=
  match s with
  | [] => match cur with [] => [] | _ => [rev cur] end
  | c :: s' =>
      if Ascii.eqb c LF then rev (c :: cur) :: lines_from [] s'
      else lines_from (c :: cur) s'
  end.

Definition file_lines (s : str) : list str := lines_from [] s.

(** [l.pop()]: the last element and the list without it; [None] is
    IndexError. *)
Definition pop (l : list str) : option (str * list str) :=
  match l with
  | [] => None
  | x :: l' => Some (last l' x, removelast l)
  end.

End Py.

Import Py.

(** ** The world: serial port, device script, clock, log, local files *)

(** Times are integers, in microseconds. *)
Definition seconds (n : Z) : Z := n * 1000000.

Record Serial := mkSerial {
  port_name : str;
  baudrate : Z;
  timeout : Z;
  rts : bool;
  dtr : bool
}.

Inductive level := DEBUG | INFO | ERROR.

Inductive logarg := AStr (s : str) | AInt (n : Z).

Record LogRecord := mkLog {
  log_level : level;
  log_fmt : str;
  log_args : list logarg
}.

(** The device is a script of what successive one-byte reads return:
    [Some c] the byte [c], [None] nothing before the read timeout.  Once
    the script is over every read times out. *)
Record World := mkWorld {
  port : Serial;
  rx : list (option ascii);
  tx : str;
  clock : Z;
  logged : list LogRecord;
  files : list (str * str)
}.

Definition set_port (p : Serial) (w : World) : World :=
  mkWorld p (rx w) (tx w) (clock w) (logged w) (files w).

Definition set_timeout (t : Z) (p : Serial) : Serial :=
  mkSerial (port_name p) (baudrate p) t (rts p) (dtr p).

Definition set_baudrate (b : Z) (p : Serial) : Serial :=
  mkSerial (port_name p) b (timeout p) (rts p) (dtr p).

Definition set_rts (v : bool) (p : Serial) : Serial :=
  mkSerial (port_name p) (baudrate p) (timeout p) v (dtr p).

Definition set_dtr (v : bool) (p : Serial) : Serial :=
  mkSerial (port_name p) (baudrate p) (timeout p) (rts p) v.

(** [log.<level>(fmt, *args)]. *)
Definition log (l : level) (fmt : string) (args : list logarg) (w : World)
  : World :=
  mkWorld (port w) (rx w) (tx w) (clock w)
          (logged w ++ [mkLog l (lit fmt) args]) (files w).

(** [log.<level>(msg)]: the message is the format, without arguments. *)
Definition log_msg (l : level) (msg : str) (w : World) : World :=
  mkWorld (port w) (rx w) (tx w) (clock w)
          (logged w ++ [mkLog l msg []]) (files w).

(** The same for a format that quotes its first argument:
    [pre "%s" post]. *)
Definition log_quoted (l : level) (pre post : string) (args : list logarg)
  (w : World) : World :=
  mkWorld (port w) (rx w) (tx w) (clock w)
          (logged w ++
           [mkLog l (lit pre ++ DQ :: lit "%s" ++ DQ :: lit post) args])
          (files w).

(** [self._port.read(1)]: one byte, or the empty string after the port's
    read timeout. *)
Definition port_read (w : World) : str * World :=
  match rx w with
  | Some c :: r =>
      ([c], mkWorld (port w) r (tx w) (clock w) (logged w) (files w))
  | None :: r =>
      ([], mkWorld (port w) r (tx w) (clock w + timeout (port w))
                   (logged w) (files w))
  | [] =>
      ([], mkWorld (port w) [] (tx w) (clock w + timeout (port w))
                   (logged w) (files w))
  end.

(** [self._port.write(output); self._port.flush()]. *)
Definition port_write (output : str) (w : World) : World :=
  mkWorld (port w) (rx w) (tx w ++ output) (clock w) (logged w) (files w).

(** [time.sleep]. *)
Definition sleep (d : Z) (w : World) : World :=
  mkWorld (port w) (rx w) (tx w) (clock w + d) (logged w) (files w).

Fixpoint lookup (k : str) (m : list (str * str)) : option str :=
  match m with
  | [] => None
  | (k', v) :: m' => if str_eqb k k' then Some v else lookup k m'
  end.

(** ** Results of a method call *)

Inductive exn := ValueError | IOError | IndexError | UnicodeDecodeError.

Inductive result (A : Type) :=
| Ok (a : A) (w : World)
| Raise (e : exn) (w : World)
| OutOfFuel.

Arguments Ok {A} a w.
Arguments Raise {A} e w.
Arguments OutOfFuel {A}.

Definition M (A : Type) := World -> result A.

Definition ret {A} (a : A) : M A := fun w => Ok a w.

Definition bind {A B} (m : M A) (f : A -> M B) : M B :=
  fun w =>
    match m w with
    | Ok a w' => f a w'
    | Raise e w' => Raise e w'
    | OutOfFuel => OutOfFuel
    end.

Definition raise {A} (e : exn) : M A := fun w => Raise e w.

(** A statement that only changes the world. *)
Definition exec (f : World -> World) : M unit := fun w => Ok tt (f w).

Notation "x <- m ;; k" := (bind m (fun x => k))
  (at level 61, m at next level, right associativity).
Notation "m ;;; k" := (bind m (fun _ => k))
  (at level 61, right associativity).

Definition world_of {A} (r : result A) (dflt : World) : World :=
  match r with
  | Ok _ w => w
  | Raise _ w => w
  | OutOfFuel => dflt
  end.

(** ** class Uploader *)

Definition BAUD : Z := 9600.
Definition TIMEOUT : Z := seconds 5.

(** The default [exp] of [expect]. *)
Definition PROMPT : str := lit "> ".

(** [lt = 0.0001], the read timeout while polling. *)
Definition lt_poll : Z := 100.

(** The [while] loop of [expect]. *)
Fixpoint expect_loop (fuel : nat) (exp : str) (end_ : Z) (data : str)
  : M str :=
  fun w =>
    if negb (endswith data exp) && (clock w <=? end_) then
      match fuel with
      | O => OutOfFuel
      | S fuel' =>
          let (b, w') := port_read w in
          expect_loop fuel' exp end_ (data ++ b) w'
      end
    else Ok data w.

(** Polls the loop can need: one per scripted read, and one per [lt_poll] of
    the deadline. *)
Definition expect_fuel (tmo : Z) (w : World) : nat :=
  (length (rx w) + Z.to_nat (tmo / lt_poll) + 2)%nat.

Definition expect (exp : str) (tmo : Z) : M str :=
  fun w =>
    let timer := timeout (port w) in
    let w1 :=
      if negb (timeout (port w) =? lt_poll)
      then set_port (set_timeout lt_poll (port w)) w else w in
    let end_ := clock w1 + tmo in
    match expect_loop (expect_fuel tmo w1) exp end_ [] w1 with
    | Ok data w2 =>
        let w3 := set_port (set_timeout timer (port w2)) w2 in
        Ok data (log DEBUG "expect return: %s" [AStr data] w3)
    | r => r
    end.

Definition write (output : str) (binary : bool) : M unit :=
  fun w =>
    let w1 :=
      if negb binary then log DEBUG "write: %s" [AStr output] w
      else log DEBUG "write binary: %s" [AStr (hex_join output)] w in
    Ok tt (port_write output w1).

Definition writeln (output : str) : M unit := write (output ++ [LF]) false.

Definition exchange (output : str) : M str :=
  writeln output ;;; expect PROMPT TIMEOUT.

(** [self._port.read(1)] and the comparison with ACK. *)
Definition got_ack : M bool :=
  fun w =>
    let w1 := log DEBUG "waiting for ack" [] w in
    let (res, w2) := port_read w1 in
    Ok (str_eqb res [ACK])
       (log DEBUG "ack read %s" [AStr (encode_hex res)] w2).

Definition write_chunk (chunk : str) : M bool :=
  exec (log DEBUG "writing %d bytes chunk" [AInt (len chunk)]) ;;;
  match chr (len chunk) with
  | None => raise ValueError
  | Some n =>
      let data := SOH :: n :: chunk in
      data <-
        (if len chunk <? 128 then
           let padding := 128 - len chunk in
           exec (log DEBUG "pad with %d characters" [AInt padding]) ;;;
           ret (data ++ times SP (Z.to_nat padding))
         else ret data) ;;
      exec (log DEBUG "packet size %d" [AInt (len data)]) ;;;
      write data false ;;;
      got_ack
  end.

(** The command of one download request. *)
Definition download_cmd (filename : str) (bytes_read chunk_size : Z) : str :=
  lit "file.open('" ++ filename ++
  lit "') print(file.seek('end', 0)) file.seek('set', " ++
  str_of_int bytes_read ++ lit ") uart.write(0, file.read(" ++
  str_of_int chunk_size ++ lit "))file.close()".

(** The [while True] loop of [download_file], with the final slice. *)
Fixpoint download_loop (fuel : nat) (filename : str) (bytes_read : Z)
  (data : str) : M str :=
  match fuel with
  | O => fun _ => OutOfFuel
  | S fuel' =>
      let chunk_size := 256 in
      d <- exchange (download_cmd filename bytes_read chunk_size) ;;
      match split LF 2 d with
      | [cmd; size; tmp_data] =>
          let data := data ++ slice tmp_data 0 (Z.to_nat chunk_size) in
          let bytes_read := bytes_read + chunk_size in
          match int size with
          | None => raise ValueError
          | Some n =>
              if bytes_read >? n then ret (slice_to data n)
              else download_loop fuel' filename bytes_read data
          end
      | _ => raise ValueError
      end
  end.

Definition download_file (fuel : nat) (filename : str) : M str :=
  download_loop fuel filename 0 [].

(** [open(destination, 'w')] then [f.write(data)]. *)
Definition write_local (destination data : str) : M unit :=
  fun w =>
    match destination with
    | [] => Raise IOError w
    | _ =>
        Ok tt (mkWorld (port w) (rx w) (tx w) (clock w) (logged w)
                       ((destination, data) :: files w))
    end.

(** [open(path, 'rb')] then [f.read()]. *)
Definition read_local (path : str) : M str :=
  fun w =>
    match lookup path (files w) with
    | Some content => Ok content w
    | None => Raise IOError w
    end.

(** [if not destination: destination = dflt]. *)
Definition or_default (destination dflt : str) : str :=
  match destination with
  | [] => dflt
  | _ => destination
  end.

Definition read_file (fuel : nat) (filename destination : str) : M unit :=
  let destination := or_default destination filename in
  exec (log INFO "Transfering %s to %s" [AStr filename; AStr destination]) ;;;
  data <- download_file fuel filename ;;
  write_local destination data.

(** The [while pos < len(content)] loop of [write_file]; [false] when a
    chunk was not acknowledged and [write_file] returns. *)
Fixpoint write_loop (fuel : nat) (content : str) (pos : nat) : M bool :=
  let chunk_size := 128%nat in
  if (pos <? length content)%nat then
    match fuel with
    | O => fun _ => OutOfFuel
    | S fuel' =>
        let rest := (length content - pos)%nat in
        let rest := if (chunk_size <? rest)%nat then chunk_size else rest in
        let data := slice content pos (pos + rest) in
        ok <- write_chunk data ;;
        if negb ok then
          d <- expect PROMPT TIMEOUT ;;
          exec (log_quoted ERROR "Bad chunk response " " %s"
                           [AStr d; AStr (hex_join d)]) ;;;
          ret false
        else write_loop fuel' content (pos + chunk_size)
    end
  else ret true.

(** The start of [write_file]: announce the transfer, call the receiver
    and wait for its prompt. *)
Definition await_receiver (path destination : str) : M str :=
  exec (log INFO "Transfering %s as %s" [AStr path; AStr destination]) ;;;
  writeln (lit "recv()") ;;;
  expect (lit "C> ") TIMEOUT.

Section Hash.

(** [hashlib.sha1(s).hexdigest()]. *)
Variable sha1_hexdigest : str -> str.

(** The verification at the end of [write_file]. *)
Definition verify_upload (fuel : nat) (verify destination content : str)
  : M unit :=
  if str_eqb verify (lit "standard") then
    exec (log INFO "Verifying..." []) ;;;
    data <- download_file fuel destination ;;
    if negb (str_eqb content data)
    then exec (log ERROR "Verification failed." [])
    else ret tt
  else if str_eqb verify (lit "sha1") then
    r <- exchange (lit "shafile(" ++ DQ :: destination ++ DQ :: lit ")") ;;
    match splitlines r with
    | _ :: data :: _ =>
        exec (log INFO "Remote SHA1: %s" [AStr data]) ;;;
        match encode content with
        | None => raise UnicodeDecodeError
        | Some c =>
            let filehashhex := sha1_hexdigest c in
            exec (log INFO "Local SHA1: %s" [AStr filehashhex]) ;;;
            if negb (str_eqb data filehashhex)
            then exec (log ERROR "Verification failed." [])
            else ret tt
        end
    | _ => raise IndexError
    end
  else ret tt.

(** What [write_file] does once the destination name is acknowledged. *)
Definition send_content (fuel : nat) (path filename destination verify : str)
  : M unit :=
  content <- read_local path ;;
  exec (log DEBUG "sending %d bytes in %s"
            [AInt (len content); AStr filename]) ;;;
  completed <- write_loop (S (length content)) content 0 ;;
  if negb completed then ret tt
  else
    exec (log DEBUG "sending zero block" []) ;;;
    _ <- write_chunk [] ;;
    verify_upload fuel verify destination content.

Definition write_file (fuel : nat) (path destination verify : str)
  : M unit :=
  let filename := basename path in
  let destination := or_default destination filename in
  res <- await_receiver path destination ;;
  if negb (endswith res (lit "C> ")) then
    exec (log_quoted ERROR "Error waiting for esp " "" [AStr res])
  else
    exec (log_quoted DEBUG "sending destination filename " ""
                     [AStr destination]) ;;;
    write (destination ++ [NUL]) true ;;;
    ack <- got_ack ;;
    if negb ack then
      exec (log ERROR "did not ack destination filename" [])
    else send_content fuel path filename destination verify.

End Hash.

(** *** Admin operations *)

Definition file_list : M str :=
  exec (log INFO "Listing files" []) ;;;
  res <- exchange
    (lit "for key,value in pairs(file.list()) do print(key,value) end") ;;
  exec (log_msg INFO res) ;;;
  ret res.

Definition file_do (f : str) : M str :=
  exec (log_msg INFO (lit "Executing " ++ f)) ;;;
  res <- exchange (lit "dofile(" ++ DQ :: f ++ DQ :: lit ")") ;;
  exec (log_msg INFO res) ;;;
  ret res.

Definition file_format : M str :=
  exec (log INFO "Formating..." []) ;;;
  res <- exchange (lit "file.format()") ;;
  (if negb (contains (lit "format done") res)
   then exec (log_msg ERROR res)
   else exec (log_msg INFO res)) ;;;
  ret res.

Definition node_heap : M str :=
  exec (log INFO "Heap" []) ;;;
  res <- exchange (lit "print(node.heap())") ;;
  exec (log_msg INFO res) ;;;
  ret res.

Definition node_restart : M str :=
  exec (log INFO "Restart" []) ;;;
  res <- exchange (lit "node.restart()") ;;
  exec (log_msg INFO res) ;;;
  ret res.

Definition file_compile (path : str) : M str :=
  exec (log_msg INFO (lit "Compile " ++ path)) ;;;
  let cmd := lit "node.compile(" ++ DQ :: path ++ DQ :: lit ")" in
  res <- exchange cmd ;;
  exec (log_msg INFO res) ;;;
  ret res.

Definition file_remove (path : str) : M str :=
  exec (log_msg INFO (lit "Remove " ++ path)) ;;;
  let cmd := lit "file.remove(" ++ DQ :: path ++ DQ :: lit ")" in
  res <- exchange cmd ;;
  exec (log_msg INFO res) ;;;
  ret res.

(** *** The constructor *)

Record Uploader := mkUploader { line_number : Z }.

(** The marker the handshake waits for: ['%sync%\r\n> ']. *)
Definition SYNC : str := lit "%sync%" ++ [CR; LF] ++ lit "> ".

(** [serial.Serial(port, baud, timeout=t)]: a fresh port object, both
    modem lines asserted. *)
Definition serial_Serial (name : str) (baud t : Z) : M unit :=
  exec (set_port (mkSerial name baud t true true)).

Definition setRTS (v : bool) : M unit :=
  exec (fun w => set_port (set_rts v (port w)) w).

Definition setDTR (v : bool) : M unit :=
  exec (fun w => set_port (set_dtr v (port w)) w).

Definition setBaudrate (b : Z) : M unit :=
  exec (fun w => set_port (set_baudrate b (port w)) w).

Definition uart_setup (baud : Z) : str :=
  lit "uart.setup(0," ++ str_of_int baud ++ lit ",8,0,1,1)".

(** The handshake at the start of [__init__], up to the answer to the
    sync command. *)
Definition handshake (name : str) : M str :=
  serial_Serial name BAUD TIMEOUT ;;;
  setRTS false ;;;
  setDTR false ;;;
  _ <- exchange (lit ";") ;;
  writeln (lit "print(" ++ DQ :: lit "%sync%" ++ DQ :: lit ");") ;;;
  expect SYNC TIMEOUT.

(** The optional change of speed of [__init__]. *)
Definition change_baud (baud : Z) : M unit :=
  if negb (baud =? BAUD) then
    exec (log INFO "Changing communication to %s baud" [AInt baud]) ;;;
    writeln (uart_setup baud) ;;;
    exec (sleep 100000) ;;;
    setBaudrate baud ;;;
    _ <- exchange [] ;;
    _ <- exchange [] ;;
    ret tt
  else ret tt.

Definition init (name : str) (baud : Z) : M Uploader :=
  _ <- handshake name ;;
  change_baud baud ;;;
  ret (mkUploader 0).

(** *** Line-oriented transfers *)

Fixpoint exchange_each (lines : list str) : M unit :=
  match lines with
  | [] => ret tt
  | line :: lines' => _ <- exchange line ;; exchange_each lines'
  end.

Definition write_lines (data : str) : M unit :=
  let lines := split_all LF (replace [CR] [] data) in
  exchange_each lines.

(** The [for lin in retlines: log.info(lin)] of [exec_file]. *)
Fixpoint log_lines (lines : list str) (w : World) : World :=
  match lines with
  | [] => w
  | lin :: lines' => log_lines lines' (log_msg INFO lin w)
  end.

(** The [for line in f] loop of [exec_file]; the value is the last
    [res]. *)
Fixpoint exec_loop (lines : list str) (res : str) : M str :=
  match lines with
  | [] => ret res
  | line :: lines' =>
      let line := rstrip_chars [CR; LF] line in
      d <- exchange line ;;
      match pop (splitlines (res ++ d)) with
      | None => raise IndexError
      | Some (res', retlines) =>
          exec (log_lines retlines) ;;;
          exec_loop lines' res'
      end
  end.

Definition exec_file (path : str) : M unit :=
  let filename := basename path in
  exec (log INFO "Execute %s" [AStr filename]) ;;;
  content <- read_local path ;;
  res <- exec_loop (file_lines content) PROMPT ;;
  exec (log_msg INFO res).

Section Prepare.

(** The receiver script of [luacode.py], which is not among the
    sources. *)
Variable SAVE_LUA : str.

(** What [prepare] makes of one line of the script. *)
Definition compact_line (line : str) : str :=
  replace (lit " = ") (lit "=") (replace (lit ", ") (lit ",") (strip line)).

(** The [for line in lines] loop of [prepare]. *)
Fixpoint prepare_loop (lines : list str) : M unit :=
  match lines with
  | [] => ret tt
  | line :: lines' =>
      let line := compact_line line in
      if len line =? 0 then prepare_loop lines'
      else
        d <- exchange line ;;
        if contains (lit "unexpected") d || (len SAVE_LUA + 10 <? len d)
        then exec (log_quoted ERROR "error in save_lua " "" [AStr d])
        else prepare_loop lines'
  end.

Definition prepare : M unit :=
  exec (log INFO "Preparing esp for transfer." []) ;;;
  fun w =>
    let data := replace (lit "9600") (str_of_int (baudrate (port w)))
                        SAVE_LUA in
    let lines := split_all LF (replace [CR] [] data) in
    prepare_loop lines w.

End Prepare.

(** ** Vocabulary of the statements *)

(** Polls left before the deadline [end_] when the clock shows [c] and
    every poll times out. *)
Definition polls_left (end_ c : Z) : nat :=
  if c <=? end_ then S (Z.to_nat ((end_ - c) / lt_poll)) else O.

(** The frame of a chunk on the wire: marker, length byte, payload,
    space padding up to 128 payload bytes. *)
Definition frame (chunk : str) : str :=
  SOH :: chr_of (length chunk) :: chunk ++ repeat SP (128 - length chunk).

Definition TERMINATOR : str := SOH :: NUL :: repeat SP 128.

(** [s] cut into consecutive pieces of [n] characters, the last one
    possibly shorter. *)
Fixpoint cut (n fuel : nat) (s : str) : list str :=
  match fuel, s with
  | S fuel', _ :: _ => firstn n s :: cut n fuel' (skipn n s)
  | _, _ => []
  end.

(** The upload chunks of a file content, in order. *)
Definition chunks (s : str) : list str := cut 128 (length s) s.

(** The payload of a frame as its length byte delimits it. *)
Definition payload_of (fr : str) : str :=
  match fr with
  | _ :: n :: body => firstn (nat_of_ascii n) body
  | _ => []
  end.

(** Reassembly on the receiving side, as the specification words it: the
    stream is read frame by frame (130 bytes each) and the payloads are
    concatenated. *)
Definition reassemble (stream : str) : str :=
  flat_map payload_of (cut 130 (length stream) stream).

(** Whether the next read of the script answers with ACK. *)
Definition acked (r : list (option ascii)) : bool :=
  match r with
  | Some c :: _ => Ascii.eqb c ACK
  | _ => false
  end.

(** A freshly opened port at the default speed, in front of a device
    that will answer [script], with local files [fs]. *)
Definition fresh (script : list (option ascii)) (fs : list (str * str))
  : World :=
  mkWorld (mkSerial (lit "/dev/ttyUSB0") BAUD TIMEOUT false false)
          script [] 0 [] fs.

(** A device that sends the bytes of [s] without delay. *)
Definition feed (s : str) : list (option ascii) := map Some s.

(** The handshake as the specification has it: a sync answer that does
    not end with the marker makes the constructor fail. *)
Definition sync_failure_is_fatal (name : str) (baud : Z) (w : World)
  : Prop :=
  forall res w1,
    handshake name w = Ok res w1 ->
    endswith res SYNC = false ->
    exists e w', init name baud w = Raise e w'.

(** The requests of [download_file] number [i], [i+1], ... ([n] of
    them). *)
Definition download_requests (filename : str) (i n : nat) : list str :=
  map (fun k => download_cmd filename (256 * Z.of_nat k) 256) (seq i n).

(** A response that parses into echo, size and payload. *)
Definition parses (size : Z) (d payload : str) : Prop :=
  exists echo sz, split LF 2 d = [echo; sz; payload] /\ int sz = Some size.

(** Responses number [i], [i+1], ... all parse, each with a size that
    the bytes requested so far do not exceed, so that the loop goes on. *)
Fixpoint continuing (i : nat) (ds : list str) : Prop :=
  match ds with
  | [] => True
  | d :: ds' =>
      (exists payload size,
         parses size d payload /\ 256 * (Z.of_nat i + 1) <= size) /\
      continuing (S i) ds'
  end.

(** What a device sends back for one download request: the echo of the
    command, the size line, the payload, the prompt. *)
Definition device_response (sizeline payload : str) : str :=
  lit "echo" ++ [LF] ++ sizeline ++ [LF] ++ payload ++ PROMPT.

(** The world [w] with another device script. *)
Definition with_rx (r : list (option ascii)) (w : World) : World :=
  mkWorld (port w) r (tx w) (clock w) (logged w) (files w).

(** Two worlds that differ only by what had been logged up to some point
    ([L] in one, [L'] in the other) and by a shift [delta] of the clock:
    same port, same device script, same bytes sent, same local files, and
    the same records logged since. *)
Definition alike (L L' : list LogRecord) (delta : Z) (w w' : World)
  : Prop :=
  port w' = port w /\ rx w' = rx w /\ tx w' = tx w /\
  files w' = files w /\ clock w' = clock w + delta /\
  exists X, logged w = L ++ X /\ logged w' = L' ++ X.

(** Two runs that end the same way, with the same value or exception, in
    worlds that are alike. *)
Definition same_outcome {A : Type} (L L' : list LogRecord) (delta : Z)
  (r r' : result A) : Prop :=
  match r, r' with
  | Ok a w, Ok a' w' => a = a' /\ alike L L' delta w w'
  | Raise e w, Raise e' w' => e = e' /\ alike L L' delta w w'
  | OutOfFuel, OutOfFuel => True
  | _, _ => False
  end.

(** A computation that cannot tell two such worlds apart. *)
Definition respects {A : Type} (L L' : list LogRecord) (delta : Z)
  (m : M A) : Prop :=
  forall w w', alike L L' delta w w' -> same_outcome L L' delta (m w) (m w').

(** The bytes that a stretch of the device script delivers. *)
Definition bytes_of (events : list (option ascii)) : str :=
  flat_map (fun e => match e with Some c => [c] | None => [] end) events.

(** A request as it goes over the wire. *)
Definition as_line (q : str) : str := q ++ [LF].

(** A response that makes [prepare] give up. *)
Definition rejected (SAVE_LUA d : str) : bool :=
  contains (lit "unexpected") d || (len SAVE_LUA + 10 <? len d).

(** The lines of the receiver script as [prepare] sends them, for the
    current speed of the port: carriage returns dropped, each line
    stripped and compacted, empty lines left out. *)
Definition script_lines (SAVE_LUA : str) (w : World) : list str :=
  filter (fun l => negb (len l =? 0))
    (map compact_line
       (split_all LF
          (replace [CR] []
             (replace (lit "9600") (str_of_int (baudrate (port w)))
                      SAVE_LUA)))).

(** The command lines [exec_file] makes of a file content. *)
Definition command_lines (content : str) : list str :=
  map (rstrip_chars [CR; LF]) (file_lines content).

(** The last record logged is an error. *)
Definition error_logged (w : World) : Prop :=
  exists l r, logged w = l ++ [r] /\ log_level r = ERROR.

(** A sequence of requests, each one an [exchange]. *)
Fixpoint exchanges (reqs : list str) : M (list str) :=
  match reqs with
  | [] => ret []
  | q :: reqs' =>
      d <- exchange q ;;
      ds <- exchanges reqs' ;;
      ret (d :: ds)
  end.

(** * Properties *)

(** ** Worlds and results *)

Lemma set_timeout_restore (p : Serial) (t : Z) :
  set_timeout (timeout p) (set_timeout t p) = p.
Proof. destruct p; reflexivity. Qed.

Lemma set_timeout_same (w : World) (t : Z) :
  timeout (port w) = t -> set_port (set_timeout t (port w)) w = w.
Proof.
  destruct w as [p r x c l f]; destruct p; simpl.
  intros ->; reflexivity.
Qed.

(** What a read leaves alone, and what it costs. *)
Lemma port_read_spec (w : World) :
  let (b, w') := port_read w in
  port w' = port w /\ tx w' = tx w /\ files w' = files w /\
  logged w' = logged w /\ rx w' = tl (rx w) /\
  ((exists c, hd_error (rx w) = Some (Some c) /\ b = [c] /\
              clock w' = clock w) \/
   (hd_error (rx w) <> None -> hd_error (rx w) = Some None) /\ b = [] /\
    clock w' = clock w + timeout (port w)).
Proof.
  unfold port_read.
  destruct (rx w) as [|[c|] r] eqn:E; simpl; repeat split; auto.
  - right; repeat split; auto. intros H; now elim H.
  - left; eauto.
Qed.

(** ** The polling loop of [expect] terminates *)

Lemma polls_left_tick (end_ c : Z) :
  c <= end_ -> (S (polls_left end_ (c + lt_poll)) <= polls_left end_ c)%nat.
Proof.
  intros H. unfold polls_left, lt_poll.
  destruct (Z.leb_spec c end_); [|lia].
  destruct (Z.leb_spec (c + 100) end_).
  - replace (end_ - c) with ((end_ - (c + 100)) + 1 * 100) by lia.
    rewrite Z.div_add by lia.
    assert (0 <= (end_ - (c + 100)) / 100) by (apply Z.div_pos; lia).
    lia.
  - lia.
Qed.

Lemma polls_left_start (c tmo : Z) :
  (polls_left (c + tmo) c <= Z.to_nat (tmo / lt_poll) + 2)%nat.
Proof.
  unfold polls_left. destruct (Z.leb_spec c (c + tmo)); [|lia].
  replace (c + tmo - c) with tmo by lia. lia.
Qed.

Lemma expect_loop_spec (fuel : nat) :
  forall exp end_ data w,
    timeout (port w) = lt_poll ->
    (length (rx w) + polls_left end_ (clock w) <= fuel)%nat ->
    exists data' w',
      expect_loop fuel exp end_ data w = Ok data' w' /\
      port w' = port w /\ tx w' = tx w /\ files w' = files w /\
      logged w' = logged w /\
      (endswith data' exp = true \/ end_ < clock w').
Proof.
  induction fuel as [|fuel IH]; intros exp end_ data w Ht Hf.
  - simpl.
    destruct (negb (endswith data exp) && (clock w <=? end_)) eqn:C.
    + apply andb_true_iff in C as [_ C]. unfold polls_left in Hf.
      rewrite C in Hf. lia.
    + exists data, w. repeat split; auto.
      apply andb_false_iff in C as [C|C].
      * left. now apply negb_false_iff.
      * right. now apply Z.leb_gt.
  - simpl.
    destruct (negb (endswith data exp) && (clock w <=? end_)) eqn:C.
    + apply andb_true_iff in C as [_ C]. apply Z.leb_le in C.
      pose proof (port_read_spec w) as R.
      destruct (port_read w) as [b w1].
      destruct R as (Rp & Rt & Rf & Rl & Rr & Rc).
      destruct (IH exp end_ (data ++ b) w1) as (d' & w' & E & P).
      * now rewrite Rp.
      * rewrite Rr. destruct Rc as [(c & Hh & _ & Hc)|(_ & _ & Hc)].
        -- rewrite Hc. destruct (rx w); simpl in *; [discriminate|lia].
        -- rewrite Hc, Ht.
           pose proof (polls_left_tick end_ (clock w) C).
           destruct (rx w); simpl in *; lia.
      * exists d', w'. rewrite E.
        destruct P as (P1 & P2 & P3 & P4 & P5).
        repeat split; auto; congruence.
    + exists data, w. repeat split; auto.
      apply andb_false_iff in C as [C|C].
      * left. now apply negb_false_iff.
      * right. now apply Z.leb_gt.
Qed.

(** [expect] runs its loop with the read timeout at [lt_poll] and puts
    the timeout back. *)
Lemma expect_run (exp : str) (tmo : Z) (w : World) :
  exists data w2,
    expect_loop (expect_fuel tmo w) exp (clock w + tmo) []
                (set_port (set_timeout lt_poll (port w)) w) = Ok data w2 /\
    port w2 = set_timeout lt_poll (port w) /\
    tx w2 = tx w /\ files w2 = files w /\ logged w2 = logged w /\
    (endswith data exp = true \/ clock w + tmo < clock w2) /\
    expect exp tmo w =
      Ok data (log DEBUG "expect return: %s" [AStr data]
                   (set_port (port w) w2)).
Proof.
  unfold expect.
  set (w1 := if negb (timeout (port w) =? lt_poll)
             then set_port (set_timeout lt_poll (port w)) w else w).
  assert (H1 : w1 = set_port (set_timeout lt_poll (port w)) w).
  { unfold w1. destruct (Z.eqb_spec (timeout (port w)) lt_poll); simpl; auto.
    symmetry. now apply set_timeout_same. }
  clearbody w1.
  destruct (expect_loop_spec (expect_fuel tmo w1) exp (clock w1 + tmo) [] w1)
    as (data & w2 & E & Hp & Ht & Hf & Hl & Hc).
  - subst w1. reflexivity.
  - unfold expect_fuel. pose proof (polls_left_start (clock w1) tmo). lia.
  - rewrite E. subst w1. exists data, w2.
    cbn [port rx tx clock logged files set_port] in *.
    change (expect_fuel tmo (set_port (set_timeout lt_poll (port w)) w))
      with (expect_fuel tmo w) in E.
    rewrite Hp, set_timeout_restore. repeat split; auto.
Qed.

(** [expect] returns, with the port, the bytes sent and the local files
    as they were, and one more log record. *)
Lemma expect_spec (exp : str) (tmo : Z) (w : World) :
  exists data w',
    expect exp tmo w = Ok data w' /\
    port w' = port w /\ tx w' = tx w /\ files w' = files w /\
    logged w' =
      logged w ++ [mkLog DEBUG (lit "expect return: %s") [AStr data]] /\
    (endswith data exp = true \/ clock w + tmo < clock w').
Proof.
  destruct (expect_run exp tmo w)
    as (data & w2 & _ & Hp & Ht & Hf & Hl & Hc & E).
  exists data. eexists. split; [exact E|].
  cbn [port rx tx clock logged files set_port log].
  rewrite Hl. repeat split; auto.
Qed.

Lemma exchange_spec (output : str) (w : World) :
  exists res w',
    exchange output w = Ok res w' /\
    port w' = port w /\ files w' = files w /\
    tx w' = tx w ++ output ++ [LF].
Proof.
  unfold exchange, bind, writeln, write. cbn [negb].
  match goal with |- context [expect ?e ?t ?v] =>
    destruct (expect_spec e t v) as (d & w1 & E & Hp & Ht & Hf & _) end.
  exists d, w1. rewrite E.
  cbn [port rx tx clock logged files log port_write] in *.
  repeat split; auto.
Qed.

(** In front of a device that has nothing more to say, [expect] reads
    nothing. *)
Lemma expect_loop_silent (fuel : nat) :
  forall exp end_ w,
    rx w = [] ->
    timeout (port w) = lt_poll ->
    (polls_left end_ (clock w) <= fuel)%nat ->
    exists w', expect_loop fuel exp end_ [] w = Ok [] w' /\ rx w' = [].
Proof.
  induction fuel as [|fuel IH]; intros exp end_ w Hr Ht Hf;
    cbv beta iota delta [expect_loop]; fold expect_loop;
    destruct (negb (endswith [] exp) && (clock w <=? end_)) eqn:C;
    try (exists w; split; [reflexivity|assumption]).
  - apply andb_true_iff in C as [_ C]. unfold polls_left in Hf.
    rewrite C in Hf. lia.
  - apply andb_true_iff in C as [_ C]. apply Z.leb_le in C.
    unfold port_read. rewrite Hr. cbn [app].
    apply IH; cbn [rx port clock]; auto.
    rewrite Ht. pose proof (polls_left_tick end_ (clock w) C). lia.
Qed.

Lemma expect_silent (exp : str) (tmo : Z) (w : World) :
  rx w = [] -> exists w', expect exp tmo w = Ok [] w' /\ rx w' = [].
Proof.
  intros Hr.
  destruct (expect_run exp tmo w) as (data & w2 & El & _ & _ & _ & _ & _ & E).
  destruct (expect_loop_silent (expect_fuel tmo w) exp (clock w + tmo)
              (set_port (set_timeout lt_poll (port w)) w))
    as (w2' & El' & Hr').
  - exact Hr.
  - reflexivity.
  - unfold expect_fuel. pose proof (polls_left_start (clock w) tmo).
    cbn [clock set_port]. lia.
  - rewrite El in El'. injection El' as -> ->.
    eexists. split; [exact E|]. cbn [rx log set_port]. exact Hr'.
Qed.

(** ** Strings *)

Lemma str_eqb_refl (a : str) : str_eqb a a = true.
Proof.
  induction a as [|x a IH]; simpl; auto.
  now rewrite Ascii.eqb_refl.
Qed.

Lemma str_eqb_eq (a b : str) : str_eqb a b = true <-> a = b.
Proof.
  split.
  - revert b. induction a as [|x a IH]; destruct b as [|y b]; simpl;
      try discriminate; auto.
    intros H. apply andb_true_iff in H as [H1 H2].
    apply Ascii.eqb_eq in H1. f_equal; auto.
  - intros ->. apply str_eqb_refl.
Qed.

Lemma nat_of_chr_of (n : nat) : (n < 256)%nat -> nat_of_ascii (chr_of n) = n.
Proof. intros H. unfold chr_of. now apply nat_ascii_embedding. Qed.

(** ** Cutting a string into pieces *)

Lemma cut_nil (n fuel : nat) : cut n fuel [] = [].
Proof. destruct fuel; reflexivity. Qed.

Lemma skipn_shorter (n : nat) (c : ascii) (s : str) :
  (0 < n)%nat -> (length (skipn n (c :: s)) <= length s)%nat.
Proof.
  intros H. rewrite length_skipn. cbn [length]. lia.
Qed.

Lemma cut_fuel (n : nat) :
  (0 < n)%nat ->
  forall f1 f2 s,
    (length s <= f1)%nat -> (length s <= f2)%nat -> cut n f1 s = cut n f2 s.
Proof.
  intros Hn. induction f1 as [|f1 IH]; intros f2 s H1 H2.
  - destruct s; simpl in *; [|lia]. now rewrite cut_nil.
  - destruct s as [|c s]; [now rewrite !cut_nil|].
    destruct f2 as [|f2]; simpl in H2; [lia|].
    pose proof (skipn_shorter n c s Hn).
    cbn [length] in H1, H2.
    cbv beta iota delta [cut]; fold cut. f_equal. apply IH; lia.
Qed.

Lemma cut_cons (n : nat) (s : str) :
  (0 < n)%nat -> s <> [] ->
  cut n (length s) s = firstn n s :: cut n (length (skipn n s)) (skipn n s).
Proof.
  intros Hn Hs. destruct s as [|c s]; [congruence|].
  pose proof (skipn_shorter n c s Hn).
  cbn [length]. cbv beta iota delta [cut]; fold cut. f_equal.
  apply cut_fuel; auto.
Qed.

Lemma concat_cut (n : nat) :
  (0 < n)%nat ->
  forall fuel s, (length s <= fuel)%nat -> concat (cut n fuel s) = s.
Proof.
  intros Hn. induction fuel as [|fuel IH]; intros s H.
  - destruct s; simpl in *; [reflexivity|lia].
  - destruct s as [|c s]; [reflexivity|].
    pose proof (skipn_shorter n c s Hn).
    cbn [length] in H.
    cbv beta iota delta [cut]; fold cut. cbn [concat]. rewrite IH.
    + apply firstn_skipn.
    + lia.
Qed.

Lemma cut_pieces (n : nat) :
  forall fuel s, Forall (fun p => (length p <= n)%nat) (cut n fuel s).
Proof.
  induction fuel as [|fuel IH]; intros s; [constructor|].
  destruct s as [|c s]; [constructor|].
  cbv beta iota delta [cut]; fold cut. constructor; [|apply IH].
  rewrite length_firstn. lia.
Qed.

(** Frames are 130 bytes long, so a stream of frames cuts back into
    them. *)
Lemma frame_length (chunk : str) :
  (length chunk <= 128)%nat -> length (frame chunk) = 130%nat.
Proof.
  intros H. unfold frame. cbn [length].
  rewrite length_app, repeat_length. lia.
Qed.

Lemma cut_frames (fs : list str) :
  Forall (fun fr => length fr = 130%nat) fs ->
  forall fuel, (length (concat fs) <= fuel)%nat ->
    cut 130 fuel (concat fs) = fs.
Proof.
  induction 1 as [|fr fs Hfr Hfs IH]; intros fuel Hf.
  - simpl. apply cut_nil.
  - simpl concat in *. rewrite length_app in Hf.
    destruct fuel as [|fuel]; [lia|].
    destruct fr as [|c fr]; [discriminate|].
    change ((c :: fr) ++ concat fs) with (c :: fr ++ concat fs).
    cbv beta iota delta [cut]. fold cut.
    change (c :: fr ++ concat fs) with ((c :: fr) ++ concat fs).
    rewrite firstn_app, skipn_app, Hfr, Nat.sub_diag.
    rewrite firstn_all2 by lia. rewrite skipn_all2 by lia.
    simpl. rewrite app_nil_r. f_equal.
    apply IH. simpl in Hfr. simpl in Hf. lia.
Qed.

Lemma payload_of_frame (chunk : str) :
  (length chunk <= 128)%nat -> payload_of (frame chunk) = chunk.
Proof.
  intros H. unfold frame, payload_of.
  rewrite nat_of_chr_of by lia.
  rewrite firstn_app, Nat.sub_diag. simpl.
  rewrite firstn_all, app_nil_r. reflexivity.
Qed.

(** Reassembling the frames of pieces of at most 128 bytes, followed by
    the terminator, gives their concatenation. *)
Lemma reassemble_frames (cs : list str) :
  Forall (fun c => (length c <= 128)%nat) cs ->
  reassemble (flat_map frame cs ++ TERMINATOR) = concat cs.
Proof.
  intros H. unfold reassemble.
  assert (E : flat_map frame cs ++ TERMINATOR =
              concat (map frame cs ++ [frame []])).
  { rewrite concat_app, flat_map_concat_map. f_equal. }
  rewrite E, cut_frames; auto.
  - rewrite flat_map_app. simpl. rewrite app_nil_r.
    rewrite flat_map_concat_map, map_map. f_equal.
    clear E. induction H as [|c cs Hc Hcs IH]; cbn [map]; auto.
    rewrite payload_of_frame by assumption. now f_equal.
  - apply Forall_app. split.
    + apply Forall_map. eapply Forall_impl; [|exact H].
      intros c Hc. now apply frame_length.
    + constructor; [reflexivity|constructor].
Qed.

(** ** Acknowledgements and chunk frames *)

(** Projections of an updated world, and nothing else. *)
Ltac wsimpl :=
  cbn [port rx tx clock logged files log log_msg log_quoted port_write
       sleep set_port] in *.

Lemma got_ack_spec (w : World) :
  exists w',
    got_ack w = Ok (acked (rx w)) w' /\
    port w' = port w /\ files w' = files w /\ tx w' = tx w /\
    rx w' = tl (rx w).
Proof.
  destruct w as [p r x c l f]. unfold got_ack, port_read, log, acked.
  cbn [rx port tx clock logged files].
  destruct r as [|[c0|] r]; cbn [str_eqb tl]; rewrite ?andb_true_r;
    eexists; (split; [reflexivity|]); repeat split.
Qed.

Lemma chr_len (chunk : str) :
  (length chunk <= 128)%nat -> chr (len chunk) = Some (chr_of (length chunk)).
Proof.
  intros H. unfold chr, len.
  destruct (Z.leb_spec 0 (Z.of_nat (length chunk))); [|lia].
  destruct (Z.ltb_spec (Z.of_nat (length chunk)) 256); [|lia].
  simpl. now rewrite Nat2Z.id.
Qed.

(** The frame that [write_chunk] sends, and the one read that follows. *)
Lemma write_chunk_spec (chunk : str) (w : World) :
  (length chunk <= 128)%nat ->
  exists w',
    write_chunk chunk w = Ok (acked (rx w)) w' /\
    port w' = port w /\ files w' = files w /\
    tx w' = tx w ++ frame chunk /\ rx w' = tl (rx w).
Proof.
  intros H. unfold write_chunk, bind, exec.
  rewrite (chr_len chunk H).
  destruct (Z.ltb_spec (len chunk) 128) as [L|L].
  - unfold ret, write, times. cbn [negb].
    match goal with |- context [got_ack ?v] =>
      destruct (got_ack_spec v) as (w' & E & Hp & Hf & Ht & Hr) end.
    exists w'. rewrite E. wsimpl. repeat split; auto.
    rewrite Ht. unfold frame, len. cbn [app]. do 5 f_equal. lia.
  - unfold ret, write. cbn [negb].
    match goal with |- context [got_ack ?v] =>
      destruct (got_ack_spec v) as (w' & E & Hp & Hf & Ht & Hr) end.
    exists w'. rewrite E. wsimpl. repeat split; auto.
    rewrite Ht. unfold frame. unfold len in L.
    replace (128 - length chunk)%nat with 0%nat by lia.
    cbn [repeat]. now rewrite app_nil_r.
Qed.

(** ** The chunk loop of [write_file] *)

Lemma chunks_nil : chunks [] = [].
Proof. reflexivity. Qed.

Lemma chunks_cons (s : str) :
  s <> [] -> chunks s = firstn 128 s :: chunks (skipn 128 s).
Proof. intros H. unfold chunks. apply cut_cons; [lia|assumption]. Qed.

Lemma chunks_short : forall s, Forall (fun c => (length c <= 128)%nat) (chunks s).
Proof. intros s. apply cut_pieces. Qed.

Lemma concat_chunks (s : str) : concat (chunks s) = s.
Proof. unfold chunks. apply concat_cut; lia. Qed.

(** The slice the loop takes at [pos] is the next piece of 128 bytes. *)
Lemma slice_chunk (content : str) (pos : nat) :
  (pos < length content)%nat ->
  let rest := (length content - pos)%nat in
  let rest := if (128 <? rest)%nat then 128%nat else rest in
  slice content pos (pos + rest) = firstn 128 (skipn pos content).
Proof.
  intros H. cbv zeta. unfold slice.
  destruct (Nat.ltb_spec 128 (length content - pos)) as [L|L].
  - f_equal. lia.
  - replace (pos + (length content - pos) - pos)%nat
      with (length (skipn pos content)) by (rewrite length_skipn; lia).
    rewrite firstn_all. symmetry. apply firstn_all2.
    rewrite length_skipn. lia.
Qed.

Lemma write_loop_spec (content : str) :
  forall fuel pos w j bad,
    (length content < pos + fuel)%nat ->
    rx w = repeat (Some ACK) j ++ bad ->
    (j <= length (chunks (skipn pos content)))%nat ->
    ((j < length (chunks (skipn pos content)))%nat -> acked bad = false) ->
    exists w',
      write_loop fuel content pos w =
        Ok (length (chunks (skipn pos content)) <=? j)%nat w' /\
      port w' = port w /\ files w' = files w /\
      tx w' =
        tx w ++ flat_map frame (firstn (S j) (chunks (skipn pos content))) /\
      (j = length (chunks (skipn pos content)) -> rx w' = bad) /\
      ((j < length (chunks (skipn pos content)))%nat -> error_logged w').
Proof.
  induction fuel as [|fuel IH]; intros pos w j bad Hfuel Hrx Hj Hbad;
    cbv beta iota zeta delta [write_loop]; fold write_loop;
    destruct (Nat.ltb_spec pos (length content)) as [L|L]; try lia.
  - (* past the end, no fuel needed *)
    rewrite skipn_all2 in * by lia. rewrite chunks_nil in *.
    cbn [length] in *. assert (j = 0%nat) by lia. subst j.
    exists w. repeat split; auto.
    + cbn. now rewrite app_nil_r.
    + lia.
  - (* one more chunk *)
    assert (Hs : skipn pos content <> []).
    { intros E. apply (f_equal (@length ascii)) in E.
      rewrite length_skipn in E. simpl in E. lia. }
    rewrite (chunks_cons _ Hs) in *. rewrite skipn_skipn in *.
    replace (128 + pos)%nat with (pos + 128)%nat in * by lia.
    rewrite (slice_chunk content pos L).
    set (data := firstn 128 (skipn pos content)) in *.
    assert (Hd : (length data <= 128)%nat).
    { unfold data. rewrite length_firstn. lia. }
    destruct (write_chunk_spec data w Hd) as (w1 & E & Hp & Hf & Ht & Hr).
    unfold bind at 1. rewrite E.
    cbn [length] in *.
    destruct j as [|j].
    + (* this chunk is not acknowledged *)
      cbn [repeat app] in Hrx. rewrite Hrx, Hbad by lia. cbn [negb].
      unfold bind, exec, ret.
      destruct (expect_spec PROMPT TIMEOUT w1)
        as (d & w2 & E2 & Hp2 & Ht2 & Hf2 & Hl2 & _).
      rewrite E2. eexists. split; [reflexivity|]. wsimpl.
      repeat split.
      * congruence.
      * congruence.
      * rewrite Ht2, Ht. cbn. now rewrite app_nil_r.
      * lia.
      * intros _. eexists. eexists. split; reflexivity.
    + (* acknowledged: go on with the rest *)
      cbn [repeat app] in Hrx. rewrite Hrx. cbn [acked].
      rewrite Ascii.eqb_refl. cbn [negb].
      destruct (IH (pos + 128)%nat w1 j bad) as (w' & E' & P1 & P2 & P3 & P4 & P5).
      * lia.
      * rewrite Hr, Hrx. reflexivity.
      * lia.
      * intros Hlt. apply Hbad. lia.
      * exists w'. rewrite E'. repeat split.
        -- congruence.
        -- congruence.
        -- rewrite P3, Ht. cbn [firstn flat_map].
           now rewrite <- app_assoc.
        -- intros Hj'. apply P4. lia.
        -- intros Hj'. apply P5. lia.
  - (* past the end *)
    rewrite skipn_all2 in * by lia. rewrite chunks_nil in *.
    cbn [length] in *. assert (j = 0%nat) by lia. subst j.
    exists w. repeat split; auto.
    + cbn. now rewrite app_nil_r.
    + lia.
Qed.

(** ** [write_file], phase by phase *)

Lemma await_receiver_spec (path destination : str) (w : World) :
  exists res w1,
    await_receiver path destination w = Ok res w1 /\
    port w1 = port w /\ files w1 = files w /\
    tx w1 = tx w ++ lit "recv()" ++ [LF].
Proof.
  unfold await_receiver, bind, exec, writeln, write. cbn [negb].
  match goal with |- context [expect ?e ?t ?v] =>
    destruct (expect_spec e t v) as (d & w1 & E & Hp & Ht & Hf & _) end.
  exists d, w1. rewrite E. wsimpl. repeat split; auto.
Qed.

(** From the receiver's prompt to the acknowledgement of the name. *)
Lemma write_file_name (sha1 : str -> str) (fuel : nat)
  (path destination verify : str) (w : World) (res : str) (w1 : World) :
  let dest := or_default destination (basename path) in
  await_receiver path dest w = Ok res w1 ->
  endswith res (lit "C> ") = true ->
  exists w2,
    port w2 = port w /\ files w2 = files w /\
    tx w2 = tx w ++ lit "recv()" ++ [LF] ++ dest ++ [NUL] /\
    rx w2 = tl (rx w1) /\
    (acked (rx w1) = false ->
       write_file sha1 fuel path destination verify w = Ok tt w2 /\
       error_logged w2) /\
    (acked (rx w1) = true ->
       write_file sha1 fuel path destination verify w =
       send_content sha1 fuel path (basename path) dest verify w2).
Proof.
  intros dest Ha He.
  destruct (await_receiver_spec path dest w)
    as (res' & w1' & Ha' & Hp & Hf & Ht).
  rewrite Ha in Ha'. injection Ha' as <- <-.
  destruct (got_ack_spec
              (port_write (dest ++ [NUL])
                 (log DEBUG "write binary: %s"
                    [AStr (hex_join (dest ++ [NUL]))]
                    (log_quoted DEBUG "sending destination filename " ""
                       [AStr dest] w1))))
    as (w2 & E & Hp2 & Hf2 & Ht2 & Hr2).
  wsimpl.
  assert (W : write_file sha1 fuel path destination verify w =
              (if negb (acked (rx w1))
               then exec (log ERROR "did not ack destination filename" [])
               else send_content sha1 fuel path (basename path) dest verify)
                w2).
  { unfold write_file. fold dest. unfold bind at 1. rewrite Ha, He.
    cbn [negb]. unfold bind at 1 2, exec at 1, write. cbn [negb].
    unfold bind at 1. rewrite E. reflexivity. }
  rewrite W.
  destruct (acked (rx w1)) eqn:A; cbn [negb].
  - exists w2. repeat split; try congruence.
    rewrite Ht2, Ht. now rewrite <- !app_assoc.
  - exists (log ERROR "did not ack destination filename" [] w2).
    repeat split; try discriminate; wsimpl; try congruence.
    + rewrite Ht2, Ht. now rewrite <- !app_assoc.
    + eexists. eexists. split; reflexivity.
Qed.

(** The content phase: [j] chunk frames are acknowledged, then the
    script goes on with [bad]. *)
Lemma send_content_spec (sha1 : str -> str) (fuel : nat)
  (path filename dest verify : str) (w : World) (content : str)
  (j : nat) (bad : list (option ascii)) :
  lookup path (files w) = Some content ->
  rx w = repeat (Some ACK) j ++ bad ->
  (j <= length (chunks content))%nat ->
  ((j < length (chunks content))%nat -> acked bad = false) ->
  exists w2,
    port w2 = port w /\ files w2 = files w /\
    tx w2 = tx w ++ flat_map frame (firstn (S j) (chunks content)) /\
    ((j < length (chunks content))%nat ->
       send_content sha1 fuel path filename dest verify w = Ok tt w2 /\
       error_logged w2) /\
    (j = length (chunks content) ->
       rx w2 = bad /\
       send_content sha1 fuel path filename dest verify w =
       (_ <- write_chunk [] ;; verify_upload sha1 fuel verify dest content)
         (log DEBUG "sending zero block" [] w2)).
Proof.
  intros Hl Hrx Hj Hbad.
  set (w0 := log DEBUG "sending %d bytes in %s"
                 [AInt (len content); AStr filename] w).
  destruct (write_loop_spec content (S (length content)) 0 w0 j bad)
    as (w2 & E & Hp & Hf & Ht & Hr & He); auto; try lia.
  cbn [skipn] in *.
  assert (W : send_content sha1 fuel path filename dest verify w =
              (if negb (length (chunks content) <=? j)%nat then ret tt
               else
                 exec (log DEBUG "sending zero block" []) ;;;
                 _ <- write_chunk [] ;;
                 verify_upload sha1 fuel verify dest content) w2).
  { unfold send_content, bind at 1, read_local. rewrite Hl.
    unfold bind at 1, exec at 1. fold w0.
    unfold bind at 1. rewrite E. reflexivity. }
  rewrite W. exists w2. split; [exact Hp|]. split; [exact Hf|].
  split; [exact Ht|]. split.
  - intros Hlt. split; [|auto].
    destruct (Nat.leb_spec (length (chunks content)) j); [lia|reflexivity].
  - intros ->. split; [auto|]. rewrite Nat.leb_refl. reflexivity.
Qed.

(** ** Claims about the upload protocol *)

(** C2: for a payload of [n <= 128] bytes [write_chunk] sends a frame of
    exactly 130 bytes: the marker 0x01, a length byte equal to [n], the
    payload, then [128 - n] spaces; and for the empty payload the frame is
    the fixed terminator, whatever the world (so whatever was sent
    before). *)
Theorem write_chunk_frame (chunk : str) (w : World) :
  (length chunk <= 128)%nat ->
  (exists ack w',
     write_chunk chunk w = Ok ack w' /\
     tx w' =
       tx w ++
       SOH :: chr_of (length chunk) :: chunk ++
       repeat SP (128 - length chunk) /\
     length (SOH :: chr_of (length chunk) :: chunk ++
             repeat SP (128 - length chunk)) = 130%nat /\
     nat_of_ascii (chr_of (length chunk)) = length chunk) /\
  (forall v, exists ack v',
     write_chunk [] v = Ok ack v' /\
     tx v' = tx v ++ SOH :: NUL :: repeat SP 128).
Proof.
  intros H. split.
  - destruct (write_chunk_spec chunk w H) as (w' & E & _ & _ & Ht & _).
    exists (acked (rx w)), w'. repeat split; auto.
    + apply (frame_length chunk H).
    + apply nat_of_chr_of. lia.
  - intros v.
    destruct (write_chunk_spec [] v) as (v' & E & _ & _ & Ht & _).
    + cbn. lia.
    + exists (acked (rx v)), v'. split; auto.
Qed.

Lemma write_chunk_frame_witness :
  exists ack w',
    write_chunk (lit "hello") (fresh [Some ACK] []) = Ok ack w' /\
    length (tx w') = 130%nat.
Proof.
  destruct (write_chunk_frame (lit "hello") (fresh [Some ACK] []))
    as [(ack & w' & E & Ht & Hl & _) _].
  - cbn. lia.
  - exists ack, w'. split; [exact E|]. rewrite Ht. exact Hl.
Defined.

(** C1: when the receiver answers and acknowledges the name and every
    chunk, what [write_file] sends after the name is a stream of frames
    whose reassembly (payloads delimited by their length bytes) is the
    content of the local file, byte for byte. *)
Theorem upload_roundtrip (sha1 : str -> str) (fuel : nat)
  (path destination : str) (w : World) (res : str) (w1 : World)
  (content : str) (rest : list (option ascii)) :
  let dest := or_default destination (basename path) in
  await_receiver path dest w = Ok res w1 ->
  endswith res (lit "C> ") = true ->
  lookup path (files w) = Some content ->
  rx w1 = repeat (Some ACK) (S (length (chunks content))) ++ rest ->
  exists w' stream,
    write_file sha1 fuel path destination (lit "none") w = Ok tt w' /\
    tx w' = tx w ++ lit "recv()" ++ [LF] ++ dest ++ [NUL] ++ stream /\
    stream = flat_map frame (chunks content) ++ TERMINATOR /\
    concat (chunks content) = content /\
    reassemble stream = content.
Proof.
  intros dest Ha He Hl Hrx.
  destruct (write_file_name sha1 fuel path destination (lit "none")
              w res w1 Ha He)
    as (w2 & Hp2 & Hf2 & Ht2 & Hr2 & _ & Hgo).
  fold dest in Ht2, Hgo.
  rewrite Hgo by (rewrite Hrx; cbn [repeat app acked];
                  apply Ascii.eqb_refl).
  destruct (send_content_spec sha1 fuel path (basename path) dest
              (lit "none") w2 content (length (chunks content)) rest)
    as (w3 & Hp3 & Hf3 & Ht3 & _ & Hdone).
  - now rewrite Hf2.
  - rewrite Hr2, Hrx. reflexivity.
  - lia.
  - lia.
  - destruct (Hdone eq_refl) as [Hr3 Es]. rewrite Es.
    destruct (write_chunk_spec [] (log DEBUG "sending zero block" [] w3))
      as (w4 & E4 & Hp4 & Hf4 & Ht4 & Hr4); [cbn; lia|].
    unfold bind at 1. rewrite E4.
    exists w4, (flat_map frame (chunks content) ++ TERMINATOR).
    split; [reflexivity|]. split; [|split; [reflexivity|split]].
    + rewrite Ht4. wsimpl. rewrite Ht3, Ht2.
      rewrite firstn_all2 by lia.
      change (frame []) with TERMINATOR.
      now rewrite <- !app_assoc.
    + apply concat_chunks.
    + rewrite reassemble_frames by apply chunks_short.
      apply concat_chunks.
Qed.

Lemma upload_roundtrip_witness :
  exists w' stream,
    write_file (fun _ => []) 0 (lit "/x/f.lua") [] (lit "none")
      (fresh (feed (lit "C> " ++ [ACK; ACK; ACK]))
             [(lit "/x/f.lua", lit "hello")]) = Ok tt w' /\
    tx w' = lit "recv()" ++ [LF] ++ lit "f.lua" ++ [NUL] ++ stream /\
    reassemble stream = lit "hello".
Proof.
  destruct (upload_roundtrip (fun _ => []) 0 (lit "/x/f.lua") []
              (fresh (feed (lit "C> " ++ [ACK; ACK; ACK]))
                     [(lit "/x/f.lua", lit "hello")])
              (lit "C> ")
              (world_of
                 (await_receiver (lit "/x/f.lua") (lit "f.lua")
                    (fresh (feed (lit "C> " ++ [ACK; ACK; ACK]))
                           [(lit "/x/f.lua", lit "hello")]))
                 (fresh [] []))
              (lit "hello") [Some ACK])
    as (w' & stream & E & Ht & _ & _ & Hr).
  - vm_compute. reflexivity.
  - vm_compute. reflexivity.
  - vm_compute. reflexivity.
  - vm_compute. reflexivity.
  - exists w', stream. split; [exact E|]. split; [exact Ht|exact Hr].
Defined.

(** C4: in [write_file] one byte is read after the name and after each
    chunk frame, and a byte other than ACK, or no byte, ends the
    transfer there: an error is logged, [write_file] returns, and
    nothing more is sent, neither a further chunk, nor the terminator,
    nor the same frame again. *)
Theorem nack_aborts_transfer (sha1 : str -> str) (fuel : nat)
  (path destination verify : str) (w : World) (res : str) (w1 : World) :
  let dest := or_default destination (basename path) in
  await_receiver path dest w = Ok res w1 ->
  endswith res (lit "C> ") = true ->
  (acked (rx w1) = false ->
   exists w',
     write_file sha1 fuel path destination verify w = Ok tt w' /\
     tx w' = tx w ++ lit "recv()" ++ [LF] ++ dest ++ [NUL] /\
     rx w' = tl (rx w1) /\
     error_logged w') /\
  (forall content j bad,
     lookup path (files w) = Some content ->
     rx w1 = repeat (Some ACK) (S j) ++ bad ->
     (j < length (chunks content))%nat ->
     acked bad = false ->
     exists w',
       write_file sha1 fuel path destination verify w = Ok tt w' /\
       tx w' =
         tx w ++ lit "recv()" ++ [LF] ++ dest ++ [NUL] ++
         flat_map frame (firstn (S j) (chunks content)) /\
       error_logged w').
Proof.
  intros dest Ha He.
  destruct (write_file_name sha1 fuel path destination verify w res w1 Ha He)
    as (w2 & Hp2 & Hf2 & Ht2 & Hr2 & Hno & Hgo).
  fold dest in Ht2, Hgo, Hno.
  split.
  - intros A. destruct (Hno A) as [E L]. exists w2. auto.
  - intros content j bad Hl Hrx Hj Hbad.
    rewrite Hgo by (rewrite Hrx; cbn [repeat app acked];
                    apply Ascii.eqb_refl).
    destruct (send_content_spec sha1 fuel path (basename path) dest
                verify w2 content j bad)
      as (w3 & Hp3 & Hf3 & Ht3 & Hfail & _).
    + now rewrite Hf2.
    + rewrite Hr2, Hrx. reflexivity.
    + lia.
    + auto.
    + destruct (Hfail Hj) as [E L]. exists w3. split; [exact E|].
      split; [|exact L]. rewrite Ht3, Ht2. now rewrite <- !app_assoc.
Qed.

Lemma nack_aborts_transfer_witness :
  exists w',
    write_file (fun _ => []) 0 (lit "/x/f.lua") [] (lit "none")
      (fresh (feed (lit "C> " ++ [ACK; chr_of 21]))
             [(lit "/x/f.lua", lit "hello")]) = Ok tt w' /\
    tx w' = lit "recv()" ++ [LF] ++ lit "f.lua" ++ [NUL] ++
            frame (lit "hello") /\
    error_logged w'.
Proof.
  destruct (nack_aborts_transfer (fun _ => []) 0 (lit "/x/f.lua") []
              (lit "none")
              (fresh (feed (lit "C> " ++ [ACK; chr_of 21]))
                     [(lit "/x/f.lua", lit "hello")])
              (lit "C> ")
              (world_of
                 (await_receiver (lit "/x/f.lua") (lit "f.lua")
                    (fresh (feed (lit "C> " ++ [ACK; chr_of 21]))
                           [(lit "/x/f.lua", lit "hello")]))
                 (fresh [] [])))
    as [_ H].
  - vm_compute. reflexivity.
  - vm_compute. reflexivity.
  - destruct (H (lit "hello") 0%nat [Some (chr_of 21)])
      as (w' & E & Ht & L).
    + vm_compute. reflexivity.
    + vm_compute. reflexivity.
    + vm_compute. lia.
    + vm_compute. reflexivity.
    + exists w'. split; [exact E|]. split; [|exact L].
      rewrite Ht. vm_compute. reflexivity.
Defined.

(** ** Claims about [expect], the admin operations and the constructor *)

(** C7: [expect] polls with the read timeout of the port at 0.0001 s and
    returns with the timeout it found, both when the data ends with the
    pattern and when the deadline has passed; the rest of the port
    configuration (name, speed, modem lines) is as before. *)
Theorem expect_restores_timeout (exp : str) (tmo : Z) (w : World) :
  exists data w2 w',
    expect_loop (expect_fuel tmo w) exp (clock w + tmo) []
                (set_port (set_timeout lt_poll (port w)) w) = Ok data w2 /\
    timeout (port w2) = lt_poll /\
    expect exp tmo w = Ok data w' /\
    (endswith data exp = true \/ clock w + tmo < clock w') /\
    timeout (port w') = timeout (port w) /\
    port_name (port w') = port_name (port w) /\
    baudrate (port w') = baudrate (port w) /\
    rts (port w') = rts (port w) /\
    dtr (port w') = dtr (port w).
Proof.
  destruct (expect_run exp tmo w)
    as (data & w2 & El & Hp & Ht & Hf & Hl & Hc & E).
  exists data, w2. eexists.
  split; [exact El|]. split; [now rewrite Hp|]. split; [exact E|].
  cbn [port rx tx clock logged files set_port log].
  repeat split; auto.
Qed.

Ltac admin_op :=
  unfold bind, exec, ret;
  match goal with |- context [exchange ?c ?v] =>
    let res := fresh "res" in
    let w1 := fresh "w1" in
    let E := fresh "E" in
    destruct (exchange_spec c v) as (res & w1 & E & _);
    exists res, w1; rewrite E; split; reflexivity
  end.

(** C8: each admin operation is one [exchange] whose response it logs
    and returns as it is, never raising; [file_format] logs the response
    as an error exactly when it does not contain ['format done'], and
    returns it all the same. *)
Theorem admin_operations_return_response (w : World) (f path : str) :
  (exists res w1,
     exchange
       (lit "for key,value in pairs(file.list()) do print(key,value) end")
       (log INFO "Listing files" [] w) = Ok res w1 /\
     file_list w = Ok res (log_msg INFO res w1)) /\
  (exists res w1,
     exchange (lit "dofile(" ++ DQ :: f ++ DQ :: lit ")")
       (log_msg INFO (lit "Executing " ++ f) w) = Ok res w1 /\
     file_do f w = Ok res (log_msg INFO res w1)) /\
  (exists res w1,
     exchange (lit "file.format()") (log INFO "Formating..." [] w)
       = Ok res w1 /\
     file_format w =
       Ok res (log_msg (if contains (lit "format done") res
                        then INFO else ERROR) res w1)) /\
  (exists res w1,
     exchange (lit "print(node.heap())") (log INFO "Heap" [] w)
       = Ok res w1 /\
     node_heap w = Ok res (log_msg INFO res w1)) /\
  (exists res w1,
     exchange (lit "node.restart()") (log INFO "Restart" [] w)
       = Ok res w1 /\
     node_restart w = Ok res (log_msg INFO res w1)) /\
  (exists res w1,
     exchange (lit "node.compile(" ++ DQ :: path ++ DQ :: lit ")")
       (log_msg INFO (lit "Compile " ++ path) w) = Ok res w1 /\
     file_compile path w = Ok res (log_msg INFO res w1)) /\
  (exists res w1,
     exchange (lit "file.remove(" ++ DQ :: path ++ DQ :: lit ")")
       (log_msg INFO (lit "Remove " ++ path) w) = Ok res w1 /\
     file_remove path w = Ok res (log_msg INFO res w1)).
Proof.
  repeat split.
  - unfold file_list. admin_op.
  - unfold file_do. admin_op.
  - unfold file_format, bind, exec, ret.
    match goal with |- context [exchange ?c ?v] =>
      destruct (exchange_spec c v) as (res & w1 & E & _) end.
    exists res, w1. rewrite E. split; [reflexivity|].
    destruct (contains (lit "format done") res); reflexivity.
  - unfold node_heap. admin_op.
  - unfold node_restart. admin_op.
  - unfold file_compile. admin_op.
  - unfold file_remove. admin_op.
Qed.

(** The speed change of the constructor cannot fail. *)
Lemma change_baud_ok (baud : Z) (w : World) :
  exists w', change_baud baud w = Ok tt w'.
Proof.
  unfold change_baud. destruct (negb (baud =? BAUD)).
  - cbv beta iota zeta delta [bind exec writeln write setBaudrate ret negb].
    match goal with |- context [exchange ?c ?v] =>
      destruct (exchange_spec c v) as (r1 & w1 & E1 & _) end.
    rewrite E1.
    destruct (exchange_spec [] w1) as (r2 & w2 & E2 & _).
    rewrite E2. eauto.
  - eexists. reflexivity.
Qed.

(** The constructor does not look at the answer to the sync command:
    whatever it is, construction goes on with the speed change. *)
Lemma init_drops_sync_answer (name : str) (baud : Z) (w : World)
  (res : str) (w1 : World) :
  handshake name w = Ok res w1 ->
  exists w',
    init name baud w = Ok (mkUploader 0) w' /\
    change_baud baud w1 = Ok tt w' /\
    (baud = BAUD -> w' = w1).
Proof.
  intros H. unfold init, bind at 1. rewrite H.
  destruct (change_baud_ok baud w1) as (w' & E).
  exists w'. unfold bind, ret. rewrite E. repeat split.
  intros ->. unfold change_baud in E.
  change (negb (BAUD =? BAUD)) with false in E.
  cbv beta iota delta [ret] in E. congruence.
Qed.

Lemma handshake_silent (name : str) (w : World) :
  rx w = [] -> exists w1, handshake name w = Ok [] w1.
Proof.
  intros Hr.
  cbv beta iota zeta delta
    [handshake bind exec serial_Serial setRTS setDTR exchange writeln write
     negb].
  match goal with |- context [expect PROMPT TIMEOUT ?v] =>
    destruct (expect_silent PROMPT TIMEOUT v) as (w1 & E1 & R1);
      [exact Hr|] end.
  rewrite E1.
  match goal with |- context [expect SYNC TIMEOUT ?v] =>
    destruct (expect_silent SYNC TIMEOUT v) as (w2 & E2 & R2);
      [exact R1|] end.
  rewrite E2. exists w2. reflexivity.
Qed.

(** The handshake logs at debug level only. *)
Lemma handshake_logs (name : str) (w : World) :
  exists res w1 l,
    handshake name w = Ok res w1 /\
    logged w1 = logged w ++ l /\
    Forall (fun r => log_level r = DEBUG) l.
Proof.
  cbv beta iota zeta delta
    [handshake bind exec serial_Serial setRTS setDTR exchange writeln write
     negb].
  match goal with |- context [expect PROMPT TIMEOUT ?v] =>
    destruct (expect_spec PROMPT TIMEOUT v)
      as (r1 & w1 & E1 & _ & _ & _ & Hl1 & _) end.
  rewrite E1.
  match goal with |- context [expect SYNC TIMEOUT ?v] =>
    destruct (expect_spec SYNC TIMEOUT v)
      as (r2 & w2 & E2 & _ & _ & _ & Hl2 & _) end.
  rewrite E2. exists r2, w2. eexists. split; [reflexivity|].
  cbn [logged log port_write set_port] in *.
  rewrite Hl2, Hl1, <- !app_assoc. split; [reflexivity|].
  repeat constructor.
Qed.

Lemma silent_sync_not_fatal (name : str) (baud : Z) (w : World) :
  rx w = [] -> ~ sync_failure_is_fatal name baud w.
Proof.
  intros Hr H.
  destruct (handshake_silent name w Hr) as (w1 & Hh).
  destruct (H [] w1 Hh eq_refl) as (e & w' & E).
  unfold init, bind in E. rewrite Hh in E.
  destruct (change_baud_ok baud w1) as (w2 & E2).
  rewrite E2 in E. discriminate.
Qed.

(** The fatal reading of the handshake does not hold of the code in
    front of a device that never answers. *)
Lemma sync_failure_not_fatal :
  ~ sync_failure_is_fatal (lit "/dev/ttyUSB0") BAUD (fresh [] []).
Proof. apply silent_sync_not_fatal. reflexivity. Qed.

(** C3, on the code: in front of a device that never answers, the
    answer to the sync command is empty, so it does not end with the
    marker; the constructor nevertheless returns a session object, in
    the world the handshake left, having raised nothing and logged
    nothing above debug level.  The failed sync is not surfaced. *)
Theorem init_silent_device_returns_session :
  exists w1,
    handshake (lit "/dev/ttyUSB0") (fresh [] []) = Ok [] w1 /\
    endswith [] SYNC = false /\
    init (lit "/dev/ttyUSB0") BAUD (fresh [] []) = Ok (mkUploader 0) w1 /\
    Forall (fun r => log_level r = DEBUG) (logged w1).
Proof.
  destruct (handshake_silent (lit "/dev/ttyUSB0") (fresh [] []) eq_refl)
    as (w1 & Hh).
  destruct (handshake_logs (lit "/dev/ttyUSB0") (fresh [] []))
    as (res & w1' & l & Hh' & Hl & Hd).
  rewrite Hh in Hh'. injection Hh' as <- <-.
  destruct (init_drops_sync_answer (lit "/dev/ttyUSB0") BAUD
              (fresh [] []) [] w1 Hh)
    as (w' & E & _ & Hw).
  rewrite (Hw eq_refl) in E.
  exists w1. split; [exact Hh|]. split; [reflexivity|].
  split; [exact E|]. rewrite Hl. exact Hd.
Qed.

(** ** The download loop *)

Lemma split_from_length (sep : ascii) :
  forall s maxsplit cur,
    (length (split_from sep maxsplit cur s)
     <= S (count_occ ascii_dec s sep))%nat.
Proof.
  induction s as [|c s IH]; intros maxsplit cur.
  - destruct maxsplit; cbn; lia.
  - destruct maxsplit as [|m]; [cbn; lia|].
    cbn [split_from]. destruct (Ascii.eqb_spec c sep) as [->|N].
    + cbn [length]. rewrite count_occ_cons_eq by reflexivity.
      specialize (IH m []). lia.
    + rewrite count_occ_cons_neq by assumption. apply IH.
Qed.

(** With fewer than two newlines there are fewer than three parts. *)
Lemma split_short (d : str) :
  (count_occ ascii_dec d LF < 2)%nat -> (length (split LF 2 d) < 3)%nat.
Proof.
  intros H. unfold split.
  pose proof (split_from_length LF d 2 []). lia.
Qed.

Lemma slice_0 (s : str) (n : nat) : slice s 0 n = firstn n s.
Proof. unfold slice. now rewrite Nat.sub_0_r. Qed.

Lemma exchanges_cons (q : str) (reqs : list str) (w : World)
  (ds : list str) (w' : World) :
  exchanges (q :: reqs) w = Ok ds w' ->
  exists d w1 ds',
    exchange q w = Ok d w1 /\ exchanges reqs w1 = Ok ds' w' /\
    ds = d :: ds'.
Proof.
  cbn [exchanges]. unfold bind at 1.
  destruct (exchange q w) as [d w1| |] eqn:E1; try discriminate.
  unfold bind at 1.
  destruct (exchanges reqs w1) as [ds' w2| |] eqn:E2; try discriminate.
  unfold ret. intros H. injection H as <- <-.
  exists d, w1, ds'. repeat split; auto.
Qed.

(** One turn of the loop on a response that parses. *)
Lemma download_loop_step (fuel : nat) (filename : str) (bytes_read : Z)
  (data : str) (w : World) (d : str) (w1 : World) (size : Z)
  (payload : str) :
  exchange (download_cmd filename bytes_read 256) w = Ok d w1 ->
  parses size d payload ->
  download_loop (S fuel) filename bytes_read data w =
  if bytes_read + 256 >? size
  then Ok (slice_to (data ++ firstn 256 payload) size) w1
  else download_loop fuel filename (bytes_read + 256)
         (data ++ firstn 256 payload) w1.
Proof.
  intros E (echo & sz & Hs & Hi).
  cbn [download_loop]. unfold bind at 1. rewrite E, Hs, Hi.
  rewrite slice_0. change (Z.to_nat 256) with 256%nat.
  destruct (bytes_read + 256 >? size); reflexivity.
Qed.

Lemma download_loop_spec (filename : str) (size : Z) :
  forall payloads fuel i data w ds w',
    exchanges (download_requests filename i (length payloads)) w
      = Ok ds w' ->
    Forall2 (parses size) ds payloads ->
    payloads <> [] ->
    256 * (Z.of_nat (i + length payloads) - 1) <= size
      < 256 * Z.of_nat (i + length payloads) ->
    (length payloads <= fuel)%nat ->
    download_loop fuel filename (256 * Z.of_nat i) data w =
    Ok (slice_to (data ++ concat (map (firstn 256) payloads)) size) w'.
Proof.
  induction payloads as [|p ps IH];
    intros fuel i data w ds w' He Hp Hne Hsz Hf; [congruence|].
  destruct fuel as [|fuel]; [cbn in Hf; lia|].
  cbn [length] in *. unfold download_requests in He. cbn [seq map] in He.
  apply exchanges_cons in He as (d & w1 & ds' & E & Er & ->).
  inversion Hp as [|d0 p0 ds0 ps0 Hd Hps]; subst.
  rewrite (download_loop_step _ _ _ _ _ _ _ _ _ E Hd).
  destruct ps as [|p' ps].
  - (* the last request *)
    cbn [length] in *. inversion Hps; subst.
    cbn in Er. injection Er as <-.
    rewrite Z.gtb_ltb.
    destruct (Z.ltb_spec size (256 * Z.of_nat i + 256)); [|lia].
    cbn [map concat]. now rewrite app_nil_r.
  - rewrite Z.gtb_ltb.
    destruct (Z.ltb_spec size (256 * Z.of_nat i + 256));
      [cbn [length] in Hsz; lia|].
    replace (256 * Z.of_nat i + 256) with (256 * Z.of_nat (S i)) by lia.
    rewrite (IH fuel (S i) (data ++ firstn 256 p) w1 ds' w'); auto.
    + cbn [map concat]. now rewrite <- app_assoc.
    + discriminate.
    + cbn [length] in *. lia.
    + lia.
Qed.

Lemma download_loop_bad (filename : str) :
  forall ds fuel i data w w1 d w',
    exchanges (download_requests filename i (length ds)) w = Ok ds w1 ->
    continuing i ds ->
    exchange (download_cmd filename (256 * Z.of_nat (i + length ds)) 256) w1
      = Ok d w' ->
    (count_occ ascii_dec d LF < 2)%nat ->
    (length ds < fuel)%nat ->
    download_loop fuel filename (256 * Z.of_nat i) data w =
    Raise ValueError w'.
Proof.
  induction ds as [|d0 ds IH]; intros fuel i data w w1 d w' He Hc Ed Hd Hf.
  - cbn in He. injection He as <-.
    destruct fuel as [|fuel]; [cbn in Hf; lia|].
    rewrite Nat.add_0_r in Ed.
    cbn [download_loop]. unfold bind at 1. rewrite Ed.
    apply split_short in Hd.
    destruct (split LF 2 d) as [|a [|b [|c [|x y]]]]; try reflexivity.
    cbn in Hd. lia.
  - destruct fuel as [|fuel]; [cbn in Hf; lia|].
    cbn [length] in *. unfold download_requests in He. cbn [seq map] in He.
    apply exchanges_cons in He as (d1 & w2 & ds' & E & Er & Heq).
    injection Heq as <- <-.
    destruct Hc as [(payload & size & Hp & Hs) Hc].
    rewrite (download_loop_step _ _ _ _ _ _ _ _ _ E Hp).
    rewrite Z.gtb_ltb.
    destruct (Z.ltb_spec size (256 * Z.of_nat i + 256)); [lia|].
    replace (256 * Z.of_nat i + 256) with (256 * Z.of_nat (S i)) by lia.
    apply (IH fuel (S i) _ w2 w1 d w'); auto.
    + replace (S i + length ds)%nat with (i + S (length ds))%nat by lia.
      exact Ed.
    + lia.
Qed.

(** ** Claims about the download protocol and the destination names *)

(** C5: when the successive responses parse into an echo line, a size
    line giving the same [size >= 0], and a payload, [download_file]
    asks for the offsets 0, 256, 512, ... and stops with the first
    request at which 256 times the number of requests exceeds [size];
    its result is the first [size] bytes of the concatenation of the
    first 256 bytes of each payload. *)
Theorem download_file_result (fuel : nat) (filename : str) (w : World)
  (size : Z) (payloads ds : list str) (w' : World) :
  0 <= size ->
  256 * (Z.of_nat (length payloads) - 1) <= size
    < 256 * Z.of_nat (length payloads) ->
  exchanges (download_requests filename 0 (length payloads)) w = Ok ds w' ->
  Forall2 (parses size) ds payloads ->
  (length payloads <= fuel)%nat ->
  download_file fuel filename w =
  Ok (firstn (Z.to_nat size) (concat (map (firstn 256) payloads))) w'.
Proof.
  intros H0 Hsz He Hp Hf. unfold download_file.
  change 0 with (256 * Z.of_nat 0).
  rewrite (download_loop_spec filename size payloads fuel 0 [] w ds w');
    auto.
  - unfold slice_to. destruct (Z.ltb_spec size 0); [lia|reflexivity].
  - intros ->. cbn in Hsz. lia.
Qed.

(** C6: when a response has fewer than two newlines, so that it does not
    split into echo, size and payload, [download_file] raises
    [ValueError] there and returns no data, whatever the earlier
    responses brought. *)
Theorem download_file_bad_response (fuel : nat) (filename : str)
  (w : World) (ds : list str) (w1 : World) (d : str) (w' : World) :
  exchanges (download_requests filename 0 (length ds)) w = Ok ds w1 ->
  continuing 0 ds ->
  exchange (download_cmd filename (256 * Z.of_nat (length ds)) 256) w1
    = Ok d w' ->
  (count_occ ascii_dec d LF < 2)%nat ->
  (length ds < fuel)%nat ->
  download_file fuel filename w = Raise ValueError w'.
Proof.
  intros He Hc Ed Hd Hf. unfold download_file.
  change 0 with (256 * Z.of_nat 0).
  apply (download_loop_bad filename ds fuel 0 [] w w1 d w'); auto.
Qed.

Lemma download_file_result_witness :
  exists w',
    download_file 2 (lit "f.lua")
      (fresh (feed (device_response (lit "260") (repeat "x"%char 256) ++
                    device_response (lit "260") (lit "tail"))) [])
    = Ok (repeat "x"%char 256 ++ lit "tail") w'.
Proof.
  eexists.
  apply (download_file_result 2 (lit "f.lua")
           (fresh (feed (device_response (lit "260") (repeat "x"%char 256) ++
                         device_response (lit "260") (lit "tail"))) [])
           260
           [repeat "x"%char 256 ++ PROMPT; lit "tail" ++ PROMPT]
           [device_response (lit "260") (repeat "x"%char 256);
            device_response (lit "260") (lit "tail")]).
  - lia.
  - cbn [length]. lia.
  - vm_compute. reflexivity.
  - constructor; [|constructor; [|constructor]].
    + exists (lit "echo"), (lit "260"). split; vm_compute; reflexivity.
    + exists (lit "echo"), (lit "260"). split; vm_compute; reflexivity.
  - cbn [length]. lia.
Defined.

Lemma download_file_bad_response_witness :
  exists w',
    download_file 1 (lit "f.lua")
      (fresh (feed (lit "stdin:1: cannot open file" ++ PROMPT)) [])
    = Raise ValueError w'.
Proof.
  eexists.
  apply (download_file_bad_response 1 (lit "f.lua")
           (fresh (feed (lit "stdin:1: cannot open file" ++ PROMPT)) [])
           []
           (fresh (feed (lit "stdin:1: cannot open file" ++ PROMPT)) [])
           (lit "stdin:1: cannot open file" ++ PROMPT)).
  - reflexivity.
  - exact I.
  - vm_compute. reflexivity.
  - vm_compute. lia.
  - cbn [length]. lia.
Defined.

Lemma lookup_head (k v : str) (m : list (str * str)) :
  lookup k ((k, v) :: m) = Some v.
Proof. cbn [lookup]. now rewrite str_eqb_refl. Qed.

(** C10: with an empty destination [write_file] names the remote file
    after the base name of the local path and [read_file] writes the
    local file named like the remote one; a destination that is given is
    the name sent to the receiver, and the local file written, as it
    is. *)
Theorem destination_defaults (sha1 : str -> str) (fuel : nat)
  (path filename destination verify : str) (w : World) :
  write_file sha1 fuel path [] verify w =
    write_file sha1 fuel path (basename path) verify w /\
  read_file fuel filename [] w = read_file fuel filename filename w /\
  (destination <> [] ->
   (forall res w1,
      await_receiver path destination w = Ok res w1 ->
      endswith res (lit "C> ") = true ->
      exists w2,
        tx w2 = tx w ++ lit "recv()" ++ [LF] ++ destination ++ [NUL] /\
        (acked (rx w1) = false ->
         write_file sha1 fuel path destination verify w = Ok tt w2) /\
        (acked (rx w1) = true ->
         write_file sha1 fuel path destination verify w =
         send_content sha1 fuel path (basename path) destination verify
           w2)) /\
   (forall data w1,
      download_file fuel filename
        (log INFO "Transfering %s to %s"
             [AStr filename; AStr destination] w) = Ok data w1 ->
      exists w',
        read_file fuel filename destination w = Ok tt w' /\
        files w' = (destination, data) :: files w1 /\
        lookup destination (files w') = Some data)).
Proof.
  split; [|split].
  - unfold write_file.
    destruct (basename path) eqn:B; cbn [or_default]; reflexivity.
  - unfold read_file.
    destruct filename; cbn [or_default]; reflexivity.
  - intros Hne.
    assert (Hd : forall dflt, or_default destination dflt = destination).
    { intros dflt. destruct destination; [congruence|reflexivity]. }
    split.
    + intros res w1 Ha He.
      pose proof (write_file_name sha1 fuel path destination verify w res w1)
        as H.
      cbv zeta in H. rewrite Hd in H.
      destruct (H Ha He) as (w2 & _ & _ & Ht & _ & Hno & Hgo).
      exists w2. split; [exact Ht|]. split; [|exact Hgo].
      intros A. now destruct (Hno A).
    + intros data w1 E.
      unfold read_file. rewrite Hd. unfold bind at 1, exec at 1.
      unfold bind at 1. rewrite E. unfold write_local.
      destruct destination as [|c r]; [congruence|].
      eexists. split; [reflexivity|].
      cbn [files]. split; [reflexivity|apply lookup_head].
Qed.

Lemma destination_defaults_witness :
  exists w',
    read_file 1 (lit "init.lua") (lit "copy.lua")
      (fresh (feed (device_response (lit "4") (lit "tail"))) [])
    = Ok tt w' /\
    lookup (lit "copy.lua") (files w') = Some (lit "tail").
Proof.
  destruct (destination_defaults (fun _ => []) 1 (lit "init.lua")
              (lit "init.lua") (lit "copy.lua") (lit "none")
              (fresh (feed (device_response (lit "4") (lit "tail"))) []))
    as (_ & _ & H).
  destruct H as [_ H]; [discriminate|].
  destruct (H (lit "tail")
              (world_of
                 (download_file 1 (lit "init.lua")
                    (log INFO "Transfering %s to %s"
                       [AStr (lit "init.lua"); AStr (lit "copy.lua")]
                       (fresh (feed (device_response (lit "4") (lit "tail")))
                              [])))
                 (fresh [] [])))
    as (w' & E & _ & L).
  - vm_compute. reflexivity.
  - exists w'. split; [exact E|exact L].
Defined.

(** ** Runs in worlds that are alike *)

Section Alike.

Variables (L L' : list LogRecord) (delta : Z).

Notation "w ~ w'" := (alike L L' delta w w') (at level 70).

Local Abbreviation respects := (respects L L' delta).

Lemma respects_ret {A : Type} (a : A) : respects (ret a).
Proof. intros w w' H. cbn. auto. Qed.

Lemma respects_raise {A : Type} (e : exn) : respects (@raise A e).
Proof. intros w w' H. cbn. auto. Qed.

Lemma respects_bind {A B : Type} (m : M A) (f : A -> M B) :
  respects m -> (forall a, respects (f a)) -> respects (bind m f).
Proof.
  intros Hm Hf w w' H. unfold bind. specialize (Hm w w' H).
  destruct (m w) as [a v|e v|], (m w') as [a' v'|e' v'|];
    cbn in Hm; try contradiction; auto.
  destruct Hm as [<- Hv]. now apply Hf.
Qed.

Lemma respects_exec (f : World -> World) :
  (forall w w', w ~ w' -> f w ~ f w') -> respects (exec f).
Proof. intros Hf w w' H. cbn. auto. Qed.

Lemma alike_logged (r : LogRecord) (w w' : World) :
  w ~ w' ->
  mkWorld (port w) (rx w) (tx w) (clock w) (logged w ++ [r]) (files w) ~
  mkWorld (port w') (rx w') (tx w') (clock w') (logged w' ++ [r]) (files w').
Proof.
  intros (Hp & Hr & Ht & Hf & Hc & X & H1 & H2).
  repeat split; auto. exists (X ++ [r]).
  cbn [logged]. rewrite H1, H2, !app_assoc. auto.
Qed.

Lemma alike_log (l : level) (fmt : string) (args : list logarg) w w' :
  w ~ w' -> log l fmt args w ~ log l fmt args w'.
Proof. apply alike_logged. Qed.

Lemma alike_log_msg (l : level) (msg : str) w w' :
  w ~ w' -> log_msg l msg w ~ log_msg l msg w'.
Proof. apply alike_logged. Qed.

Lemma alike_port_write (output : str) w w' :
  w ~ w' -> port_write output w ~ port_write output w'.
Proof.
  intros (Hp & Hr & Ht & Hf & Hc & X & H1 & H2).
  unfold port_write. repeat split; cbn; auto.
  - now rewrite Ht.
  - eauto.
Qed.

Lemma alike_set_timeout (t : Z) w w' :
  w ~ w' ->
  set_port (set_timeout t (port w)) w ~ set_port (set_timeout t (port w')) w'.
Proof.
  intros (Hp & Hr & Ht & Hf & Hc & X & H1 & H2).
  unfold set_port. repeat split; cbn; auto.
  - now rewrite Hp.
  - eauto.
Qed.

Lemma alike_port_read w w' :
  w ~ w' ->
  fst (port_read w') = fst (port_read w) /\
  snd (port_read w) ~ snd (port_read w').
Proof.
  intros (Hp & Hr & Ht & Hf & Hc & X & H1 & H2).
  unfold port_read. rewrite Hr, Hp.
  destruct (rx w) as [|[c|] r]; cbn [fst snd]; split; auto;
    repeat split; cbn [port rx tx clock logged files]; eauto; lia.
Qed.

Lemma respects_write (output : str) (binary : bool) :
  respects (write output binary).
Proof.
  intros w w' H. unfold write. cbn [same_outcome]. split; auto.
  apply alike_port_write. destruct binary; cbn [negb]; now apply alike_log.
Qed.

Lemma expect_loop_alike (fuel : nat) :
  forall exp end_ data w w',
    w ~ w' ->
    same_outcome L L' delta
      (expect_loop fuel exp end_ data w)
      (expect_loop fuel exp (end_ + delta) data w').
Proof.
  induction fuel as [|fuel IH]; intros exp end_ data w w' H;
    cbv beta iota delta [expect_loop]; fold expect_loop;
    assert (C : (clock w' <=? end_ + delta) = (clock w <=? end_))
      by (destruct H as (_ & _ & _ & _ & Hc & _); rewrite Hc;
          destruct (Z.leb_spec (clock w + delta) (end_ + delta)),
                   (Z.leb_spec (clock w) end_); auto; lia);
    rewrite C;
    destruct (negb (endswith data exp) && (clock w <=? end_));
    cbn [same_outcome]; auto.
  destruct (alike_port_read w w' H) as [Hb Hw].
  destruct (port_read w) as [b v], (port_read w') as [b' v'].
  cbn [fst snd] in *. subst b'. now apply IH.
Qed.

Lemma respects_expect (exp : str) (tmo : Z) : respects (expect exp tmo).
Proof.
  intros w w' H. unfold expect.
  pose proof H as (Hp & Hr & Ht & Hf & Hc & _).
  rewrite Hp.
  set (w1 := if negb (timeout (port w) =? lt_poll)
             then set_port (set_timeout lt_poll (port w)) w else w).
  set (w1' := if negb (timeout (port w) =? lt_poll)
              then set_port (set_timeout lt_poll (port w)) w' else w').
  assert (H1 : w1 ~ w1').
  { unfold w1, w1'. destruct (negb (timeout (port w) =? lt_poll)); auto.
    rewrite <- Hp at 2. now apply alike_set_timeout. }
  pose proof H1 as (_ & Hr1 & _ & _ & Hc1 & _).
  unfold expect_fuel. rewrite Hr1, Hc1.
  replace (clock w1 + delta + tmo) with (clock w1 + tmo + delta) by lia.
  pose proof (expect_loop_alike
                (length (rx w1) + Z.to_nat (tmo / lt_poll) + 2)
                exp (clock w1 + tmo) [] w1 w1' H1) as E.
  destruct (expect_loop _ exp (clock w1 + tmo) [] w1) as [d v|e v|],
           (expect_loop _ exp (clock w1 + tmo + delta) [] w1')
             as [d' v'|e' v'|];
    cbn [same_outcome] in *; try contradiction; auto.
  destruct E as [<- Hv]. split; auto.
  apply alike_log. now apply alike_set_timeout.
Qed.

Lemma respects_exchange (output : str) : respects (exchange output).
Proof.
  unfold exchange, writeln. apply respects_bind.
  - apply respects_write.
  - intros _. apply respects_expect.
Qed.

Lemma respects_download_loop (filename : str) :
  forall fuel bytes_read data,
    respects (download_loop fuel filename bytes_read data).
Proof.
  induction fuel as [|fuel IH]; intros bytes_read data.
  - intros w w' H. cbn. exact I.
  - cbn [download_loop]. apply respects_bind.
    + apply respects_exchange.
    + intros d.
      destruct (split LF 2 d) as [|x [|y [|z [|u v]]]];
        try apply respects_raise.
      destruct (int y); [|apply respects_raise].
      destruct (_ >? _); [apply respects_ret|apply IH].
Qed.

Lemma respects_verify_upload (sha1 : str -> str) (fuel : nat)
  (verify destination content : str) :
  respects (verify_upload sha1 fuel verify destination content).
Proof.
  unfold verify_upload.
  destruct (str_eqb verify (lit "standard")).
  - apply respects_bind.
    + apply respects_exec. intros w w'. apply alike_log.
    + intros _. apply respects_bind.
      * apply respects_download_loop.
      * intros data. destruct (negb (str_eqb content data)).
        -- apply respects_exec. intros w w'. apply alike_log.
        -- apply respects_ret.
  - destruct (str_eqb verify (lit "sha1")); [|apply respects_ret].
    apply respects_bind; [apply respects_exchange|].
    intros r. destruct (splitlines r) as [|x [|data t]];
      try apply respects_raise.
    apply respects_bind.
    + apply respects_exec. intros w w'. apply alike_log.
    + intros _. destruct (encode content); [|apply respects_raise].
      apply respects_bind.
      * apply respects_exec. intros w w'. apply alike_log.
      * intros _. destruct (negb _).
        -- apply respects_exec. intros w w'. apply alike_log.
        -- apply respects_ret.
Qed.

End Alike.

(** ** The terminator *)

(** C9: once every data chunk is acknowledged, [write_file] sends the
    terminator frame and reads one byte for it, and goes on to the
    verification whatever that byte was.  Had the device answered the
    terminator differently (another byte, or none), the verification
    would end the same way: same value or exception, same bytes sent,
    same port, same files, same records logged during it; only the
    record of the byte read and the clock differ. *)
Theorem terminator_ack_discarded (sha1 : str -> str) (fuel : nat)
  (path destination verify : str) (w : World) (res : str) (w1 : World)
  (content : str) (a : option ascii) (rest : list (option ascii)) :
  let dest := or_default destination (basename path) in
  await_receiver path dest w = Ok res w1 ->
  endswith res (lit "C> ") = true ->
  lookup path (files w) = Some content ->
  rx w1 = repeat (Some ACK) (S (length (chunks content))) ++ a :: rest ->
  exists w2 w3,
    tx w2 = tx w ++ lit "recv()" ++ [LF] ++ dest ++ [NUL] ++
            flat_map frame (chunks content) /\
    rx w2 = a :: rest /\
    write_chunk [] w2 = Ok (acked (a :: rest)) w3 /\
    tx w3 = tx w2 ++ TERMINATOR /\
    rx w3 = rest /\
    write_file sha1 fuel path destination verify w =
      verify_upload sha1 fuel verify dest content w3 /\
    forall a', exists w3',
      write_chunk [] (with_rx (a' :: rest) w2)
        = Ok (acked (a' :: rest)) w3' /\
      same_outcome (logged w3) (logged w3') (clock w3' - clock w3)
        (verify_upload sha1 fuel verify dest content w3)
        (verify_upload sha1 fuel verify dest content w3').
Proof.
  intros dest Ha He Hl Hrx.
  destruct (write_file_name sha1 fuel path destination verify w res w1 Ha He)
    as (v & Hp & Hf & Ht & Hr & _ & Hgo).
  fold dest in Ht, Hgo.
  rewrite Hgo by (rewrite Hrx; cbn [repeat app acked];
                  apply Ascii.eqb_refl).
  destruct (send_content_spec sha1 fuel path (basename path) dest
              verify v content (length (chunks content)) (a :: rest))
    as (v1 & Hp1 & Hf1 & Ht1 & _ & Hdone).
  - now rewrite Hf.
  - rewrite Hr, Hrx. reflexivity.
  - lia.
  - lia.
  - destruct (Hdone eq_refl) as [Hr1 Es].
    set (w2 := log DEBUG "sending zero block" [] v1) in *.
    destruct (write_chunk_spec [] w2) as (w3 & E3 & Hp3 & Hf3 & Ht3 & Hr3);
      [cbn; lia|].
    assert (Hr2 : rx w2 = a :: rest) by exact Hr1.
    rewrite Hr2 in E3, Hr3. cbn [tl] in Hr3.
    exists w2, w3. split; [|split; [|split; [|split; [|split; [|split]]]]];
      auto.
    + unfold w2. wsimpl. rewrite Ht1, Ht.
      rewrite firstn_all2 by lia. now rewrite <- !app_assoc.
    + rewrite Es. unfold bind at 1. rewrite E3. reflexivity.
    + intros a'.
      destruct (write_chunk_spec [] (with_rx (a' :: rest) w2))
        as (w3' & E3' & Hp3' & Hf3' & Ht3' & Hr3'); [cbn; lia|].
      cbn [with_rx port rx tx files tl] in *.
      exists w3'. split; [exact E3'|].
      apply respects_verify_upload.
      repeat split; try congruence.
      * lia.
      * exists []. now rewrite !app_nil_r.
Qed.

Lemma terminator_ack_discarded_witness :
  exists w',
    write_file (fun _ => []) 0 (lit "/x/f.lua") [] (lit "none")
      (fresh (feed (lit "C> " ++ [ACK; ACK; chr_of 21]))
             [(lit "/x/f.lua", lit "hello")]) = Ok tt w' /\
    tx w' = lit "recv()" ++ [LF] ++ lit "f.lua" ++ [NUL] ++
            frame (lit "hello") ++ TERMINATOR.
Proof.
  destruct (terminator_ack_discarded (fun _ => []) 0 (lit "/x/f.lua") []
              (lit "none")
              (fresh (feed (lit "C> " ++ [ACK; ACK; chr_of 21]))
                     [(lit "/x/f.lua", lit "hello")])
              (lit "C> ")
              (world_of
                 (await_receiver (lit "/x/f.lua") (lit "f.lua")
                    (fresh (feed (lit "C> " ++ [ACK; ACK; chr_of 21]))
                           [(lit "/x/f.lua", lit "hello")]))
                 (fresh [] []))
              (lit "hello") (Some (chr_of 21)) [])
    as (w2 & w3 & Ht2 & _ & _ & Ht3 & _ & E & _).
  - vm_compute. reflexivity.
  - vm_compute. reflexivity.
  - vm_compute. reflexivity.
  - vm_compute. reflexivity.
  - exists w3. split; [exact E|].
    rewrite Ht3, Ht2. vm_compute. reflexivity.
Defined.

(** * Further properties of the code *)

(** ** What [expect] reads, and when it stops *)

Lemma expect_loop_trace (fuel : nat) :
  forall exp end_ data w data' w',
    timeout (port w) = lt_poll ->
    expect_loop fuel exp end_ data w = Ok data' w' ->
    exists k,
      rx w' = skipn k (rx w) /\
      data' = data ++ bytes_of (firstn k (rx w)) /\
      (forall n, (length data <= n < length data')%nat ->
                 endswith (firstn n data') exp = false) /\
      clock w <= clock w' <= Z.max (clock w) (end_ + lt_poll).
Proof.
  induction fuel as [|fuel IH]; intros exp end_ data w data' w' Ht;
    cbv beta iota delta [expect_loop]; fold expect_loop;
    destruct (negb (endswith data exp) && (clock w <=? end_)) eqn:C;
    intros E; try discriminate;
    try (injection E as <- <-; exists 0%nat; cbn [skipn firstn bytes_of flat_map];
         rewrite app_nil_r; repeat split; auto; lia).
  apply andb_true_iff in C as [Cm Cc].
  apply negb_true_iff in Cm. apply Z.leb_le in Cc.
  pose proof (port_read_spec w) as R.
  destruct (port_read w) as [b w1].
  destruct R as (Rp & _ & _ & _ & Rr & Rc).
  destruct (IH exp end_ (data ++ b) w1 data' w') as (k & Hk & Hd & Hn & Hc);
    [congruence|exact E|].
  assert (Hb : exists k1,
             rx w' = skipn k1 (rx w) /\
             data' = data ++ bytes_of (firstn k1 (rx w)) /\
             clock w <= clock w1 <= end_ + lt_poll).
  { destruct Rc as [(c & Hh & -> & Hcl)|(Hh & -> & Hcl)].
    - destruct (rx w) as [|e r] eqn:Er; [discriminate|].
      cbn in Hh. injection Hh as ->. cbn [tl] in Rr. rewrite Rr in *.
      exists (S k). cbn [skipn firstn bytes_of flat_map].
      rewrite Hd, <- app_assoc. repeat split; auto; unfold lt_poll; lia.
    - rewrite app_nil_r in Hd.
      destruct (rx w) as [|e r] eqn:Er.
      + cbn [tl] in Rr. rewrite Rr in *. exists k.
        rewrite Ht in Hcl. repeat split; auto; unfold lt_poll in *; lia.
      + cbn in Hh. assert (e = None) by
          (assert (Some e = Some None) by (apply Hh; discriminate);
           congruence).
        subst e. cbn [tl] in Rr. rewrite Rr in *.
        exists (S k). cbn [skipn firstn bytes_of flat_map app].
        rewrite Ht in Hcl.
        repeat split; auto; unfold lt_poll in *; lia. }
  destruct Hb as (k1 & Hk1 & Hd1 & Hc1).
  exists k1. split; [exact Hk1|]. split; [exact Hd1|]. split; [|lia].
  intros n Hn'.
  destruct (Nat.eq_dec n (length data)) as [->|Hne].
  - rewrite Hd1, firstn_app, Nat.sub_diag, firstn_all. cbn [firstn].
    now rewrite app_nil_r.
  - destruct (Nat.le_gt_cases (length (data ++ b)) n) as [Hle|Hgt].
    + apply Hn. lia.
    + (* [b] is one byte and [n] lies strictly inside: impossible *)
      rewrite length_app in Hgt.
      destruct Rc as [(c & _ & -> & _)|(_ & -> & _)]; cbn [length] in Hgt; lia.
Qed.

(** X1: the data [expect] returns is what the device delivered while it
    was polling, byte for byte and in order: some number of scripted
    reads is consumed, the rest of the script is left for later calls,
    and nothing is sent. *)
Theorem expect_returns_what_was_read (exp : str) (tmo : Z) (w : World) :
  exists data w' k,
    expect exp tmo w = Ok data w' /\
    data = bytes_of (firstn k (rx w)) /\
    rx w' = skipn k (rx w) /\
    tx w' = tx w /\ files w' = files w.
Proof.
  destruct (expect_run exp tmo w)
    as (data & w2 & El & Hp & Ht & Hf & Hl & Hc & E).
  destruct (expect_loop_trace _ _ _ _
              (set_port (set_timeout lt_poll (port w)) w) _ _ eq_refl El)
    as (k & Hk & Hd & _ & _).
  exists data. eexists. exists k. split; [exact E|].
  cbn [rx tx files log set_port] in *. auto.
Qed.

(** X2: [expect] stops at the first match: no strict prefix of the data
    it returns ends with the pattern. *)
Theorem expect_stops_at_first_match (exp : str) (tmo : Z) (w : World) :
  exists data w',
    expect exp tmo w = Ok data w' /\
    forall n, (n < length data)%nat ->
              endswith (firstn n data) exp = false.
Proof.
  destruct (expect_run exp tmo w)
    as (data & w2 & El & Hp & Ht & Hf & Hl & Hc & E).
  destruct (expect_loop_trace _ _ _ _
              (set_port (set_timeout lt_poll (port w)) w) _ _ eq_refl El)
    as (k & _ & _ & Hn & _).
  exists data. eexists. split; [exact E|].
  intros n Hlt. apply Hn. cbn [length]. lia.
Qed.

(** X3: with a timeout that is not negative, [expect] returns at most
    one poll (0.0001 s) after its deadline; and when the data does not
    end with the pattern, the deadline has passed. *)
Theorem expect_deadline (exp : str) (tmo : Z) (w : World) :
  0 <= tmo ->
  exists data w',
    expect exp tmo w = Ok data w' /\
    clock w <= clock w' <= clock w + tmo + lt_poll /\
    (endswith data exp = false -> clock w + tmo < clock w').
Proof.
  intros H0.
  destruct (expect_run exp tmo w)
    as (data & w2 & El & Hp & Ht & Hf & Hl & Hc & E).
  destruct (expect_loop_trace _ _ _ _
              (set_port (set_timeout lt_poll (port w)) w) _ _ eq_refl El)
    as (k & _ & _ & _ & Hcl).
  exists data. eexists. split; [exact E|].
  cbn [clock log set_port] in *. split.
  - unfold lt_poll in *. lia.
  - intros Hm. destruct Hc as [Hc|Hc]; [congruence|exact Hc].
Qed.

Lemma expect_deadline_witness :
  exists data w',
    expect PROMPT TIMEOUT (fresh (feed (lit "hello> world")) [])
      = Ok data w' /\
    clock w' <= seconds 5 + lt_poll.
Proof.
  destruct (expect_deadline PROMPT TIMEOUT
              (fresh (feed (lit "hello> world")) []))
    as (data & w' & E & Hc & _).
  - vm_compute. discriminate.
  - exists data, w'. split; [exact E|]. exact (proj2 Hc).
Defined.

(** ** Acknowledgements and frames outside the usual range *)

(** X4: [got_ack] consumes one scripted read and answers [True] exactly
    when that read delivered the byte 0x06; a read that delivers nothing
    costs the read timeout of the port; nothing is sent and neither the
    port nor the local files change. *)
Theorem got_ack_reads_one_byte (w : World) :
  exists w',
    got_ack w = Ok (acked (rx w)) w' /\
    (acked (rx w) = true <-> hd_error (rx w) = Some (Some ACK)) /\
    rx w' = tl (rx w) /\ tx w' = tx w /\
    port w' = port w /\ files w' = files w /\
    clock w' =
      clock w +
      match rx w with Some _ :: _ => 0 | _ => timeout (port w) end.
Proof.
  destruct w as [p r x c l f]. unfold got_ack, port_read, log, acked.
  cbn [rx port tx clock logged files].
  destruct r as [|[c0|] r]; cbn [str_eqb tl hd_error]; rewrite ?andb_true_r;
    eexists; (split; [reflexivity|]);
    cbn [rx port tx clock logged files]; repeat split;
    try discriminate; try lia.
  - intros H. apply Ascii.eqb_eq in H. now subst.
  - intros H. injection H as ->. apply Ascii.eqb_refl.
Qed.

Lemma chr_byte (chunk : str) :
  (length chunk <= 255)%nat -> chr (len chunk) = Some (chr_of (length chunk)).
Proof.
  intros H. unfold chr, len.
  destruct (Z.leb_spec 0 (Z.of_nat (length chunk))); [|lia].
  destruct (Z.ltb_spec (Z.of_nat (length chunk)) 256); [|lia].
  cbn [andb]. now rewrite Nat2Z.id.
Qed.

(** X5: a chunk of more than 255 bytes makes [write_chunk] raise
    [ValueError] (its length does not fit [chr]) before anything is
    written or read. *)
Theorem write_chunk_too_long (chunk : str) (w : World) :
  (255 < length chunk)%nat ->
  exists w',
    write_chunk chunk w = Raise ValueError w' /\
    tx w' = tx w /\ rx w' = rx w /\ clock w' = clock w.
Proof.
  intros H. unfold write_chunk, bind, exec, chr, len.
  destruct (Z.ltb_spec (Z.of_nat (length chunk)) 256); [lia|].
  rewrite andb_false_r. eexists. split; [reflexivity|].
  cbn [tx rx clock log]. auto.
Qed.

Lemma write_chunk_too_long_witness :
  exists w',
    write_chunk (repeat "x"%char 256) (fresh [Some ACK] [])
      = Raise ValueError w' /\ tx w' = [].
Proof.
  destruct (write_chunk_too_long (repeat "x"%char 256)
              (fresh [Some ACK] []))
    as (w' & E & Ht & _).
  - rewrite repeat_length. lia.
  - exists w'. split; [exact E|exact Ht].
Defined.

(** X6: a chunk of 128 to 255 bytes is framed without padding: marker,
    length byte, payload, so 2 more bytes than the payload, and more
    than the 130 bytes of a regular frame as soon as the payload exceeds
    128 bytes. *)
Theorem write_chunk_unpadded (chunk : str) (w : World) :
  (128 <= length chunk <= 255)%nat ->
  exists w',
    write_chunk chunk w = Ok (acked (rx w)) w' /\
    tx w' = tx w ++ SOH :: chr_of (length chunk) :: chunk /\
    nat_of_ascii (chr_of (length chunk)) = length chunk /\
    rx w' = tl (rx w).
Proof.
  intros H. unfold write_chunk, bind, exec.
  rewrite (chr_byte chunk) by lia.
  destruct (Z.ltb_spec (len chunk) 128) as [L|L]; [unfold len in L; lia|].
  unfold ret, write. cbn [negb].
  match goal with |- context [got_ack ?v] =>
    destruct (got_ack_spec v) as (w' & E & Hp & Hf & Ht & Hr) end.
  exists w'. rewrite E. wsimpl. repeat split; auto.
  apply nat_of_chr_of. lia.
Qed.

Lemma write_chunk_unpadded_witness :
  exists w',
    write_chunk (repeat "x"%char 200) (fresh [Some ACK] []) = Ok true w' /\
    length (tx w') = 202%nat.
Proof.
  destruct (write_chunk_unpadded (repeat "x"%char 200)
              (fresh [Some ACK] []))
    as (w' & E & Ht & _).
  - rewrite repeat_length. lia.
  - exists w'. split; [exact E|]. rewrite Ht. vm_compute. reflexivity.
Defined.

(** ** [write_file]: the guards and the size of the upload *)

(** X7: when the answer to [recv()] does not end with ['C> '],
    [write_file] logs an error and returns; it has sent the [recv()]
    line and nothing else, and has not opened the local file. *)
Theorem no_receiver_prompt (sha1 : str -> str) (fuel : nat)
  (path destination verify : str) (w : World) (res : str) (w1 : World) :
  await_receiver path (or_default destination (basename path)) w
    = Ok res w1 ->
  endswith res (lit "C> ") = false ->
  exists w',
    write_file sha1 fuel path destination verify w = Ok tt w' /\
    tx w' = tx w ++ lit "recv()" ++ [LF] /\
    rx w' = rx w1 /\
    error_logged w'.
Proof.
  intros Ha He.
  destruct (await_receiver_spec path
              (or_default destination (basename path)) w)
    as (res' & w1' & Ha' & Hp & Hf & Ht).
  rewrite Ha in Ha'. injection Ha' as <- <-.
  unfold write_file, bind at 1. rewrite Ha, He. cbn [negb].
  eexists. split; [reflexivity|]. wsimpl. repeat split; auto.
  eexists. eexists. split; reflexivity.
Qed.

Lemma no_receiver_prompt_witness :
  exists w',
    write_file (fun _ => []) 0 (lit "/x/f.lua") [] (lit "none")
      (fresh (feed (lit "> ")) []) = Ok tt w' /\
    tx w' = lit "recv()" ++ [LF].
Proof.
  destruct (no_receiver_prompt (fun _ => []) 0 (lit "/x/f.lua") []
              (lit "none") (fresh (feed (lit "> ")) [])
              (lit "> ")
              (world_of
                 (await_receiver (lit "/x/f.lua") (lit "f.lua")
                    (fresh (feed (lit "> ")) []))
                 (fresh [] [])))
    as (w' & E & Ht & _).
  - vm_compute. reflexivity.
  - vm_compute. reflexivity.
  - exists w'. split; [exact E|exact Ht].
Defined.

(** X8: the local file is opened only after the receiver has accepted
    the name: when it does not exist, [write_file] raises [IOError]
    having already sent [recv()] and the name, and sends no chunk. *)
Theorem missing_local_file (sha1 : str -> str) (fuel : nat)
  (path destination verify : str) (w : World) (res : str) (w1 : World) :
  let dest := or_default destination (basename path) in
  await_receiver path dest w = Ok res w1 ->
  endswith res (lit "C> ") = true ->
  acked (rx w1) = true ->
  lookup path (files w) = None ->
  exists w',
    write_file sha1 fuel path destination verify w = Raise IOError w' /\
    tx w' = tx w ++ lit "recv()" ++ [LF] ++ dest ++ [NUL] /\
    rx w' = tl (rx w1).
Proof.
  intros dest Ha He Hack Hl.
  destruct (write_file_name sha1 fuel path destination verify w res w1 Ha He)
    as (w2 & Hp2 & Hf2 & Ht2 & Hr2 & _ & Hgo).
  fold dest in Ht2, Hgo. rewrite (Hgo Hack).
  unfold send_content, bind at 1, read_local. rewrite Hf2, Hl.
  exists w2. auto.
Qed.

Lemma missing_local_file_witness :
  exists w',
    write_file (fun _ => []) 0 (lit "/x/f.lua") [] (lit "none")
      (fresh (feed (lit "C> " ++ [ACK])) []) = Raise IOError w' /\
    tx w' = lit "recv()" ++ [LF] ++ lit "f.lua" ++ [NUL].
Proof.
  destruct (missing_local_file (fun _ => []) 0 (lit "/x/f.lua") []
              (lit "none") (fresh (feed (lit "C> " ++ [ACK])) [])
              (lit "C> ")
              (world_of
                 (await_receiver (lit "/x/f.lua") (lit "f.lua")
                    (fresh (feed (lit "C> " ++ [ACK])) []))
                 (fresh [] [])))
    as (w' & E & Ht & _).
  - vm_compute. reflexivity.
  - vm_compute. reflexivity.
  - vm_compute. reflexivity.
  - reflexivity.
  - exists w'. split; [exact E|exact Ht].
Defined.

(** With the name and every chunk acknowledged, [write_file] comes to
    its verification having sent all the frames and the terminator. *)
Lemma write_file_reaches_verify (sha1 : str -> str) (fuel : nat)
  (path destination verify : str) (w : World) (res : str) (w1 : World)
  (content : str) (rest : list (option ascii)) :
  let dest := or_default destination (basename path) in
  await_receiver path dest w = Ok res w1 ->
  endswith res (lit "C> ") = true ->
  lookup path (files w) = Some content ->
  rx w1 = repeat (Some ACK) (S (length (chunks content))) ++ rest ->
  exists w3,
    write_file sha1 fuel path destination verify w =
      verify_upload sha1 fuel verify dest content w3 /\
    tx w3 = tx w ++ lit "recv()" ++ [LF] ++ dest ++ [NUL] ++
            flat_map frame (chunks content) ++ TERMINATOR /\
    rx w3 = tl rest /\ port w3 = port w /\ files w3 = files w.
Proof.
  intros dest Ha He Hl Hrx.
  destruct (write_file_name sha1 fuel path destination verify w res w1 Ha He)
    as (w2 & Hp2 & Hf2 & Ht2 & Hr2 & _ & Hgo).
  fold dest in Ht2, Hgo.
  rewrite Hgo by (rewrite Hrx; cbn [repeat app acked];
                  apply Ascii.eqb_refl).
  destruct (send_content_spec sha1 fuel path (basename path) dest
              verify w2 content (length (chunks content)) rest)
    as (v & Hp3 & Hf3 & Ht3 & _ & Hdone).
  - now rewrite Hf2.
  - rewrite Hr2, Hrx. reflexivity.
  - lia.
  - lia.
  - destruct (Hdone eq_refl) as [Hr3 Es]. rewrite Es.
    destruct (write_chunk_spec [] (log DEBUG "sending zero block" [] v))
      as (w3 & E3 & Hp4 & Hf4 & Ht4 & Hr4); [cbn; lia|].
    unfold bind at 1. rewrite E3. exists w3. wsimpl.
    split; [reflexivity|]. repeat split; try congruence.
    rewrite Ht4, Ht3, Ht2. rewrite firstn_all2 by lia.
    change (frame []) with TERMINATOR. now rewrite <- !app_assoc.
Qed.

Lemma cut_count :
  forall fuel s,
    (length s <= fuel)%nat ->
    length (cut 128 fuel s) = ((length s + 127) / 128)%nat.
Proof.
  induction fuel as [|fuel IH]; intros s H.
  - destruct s; [reflexivity|cbn in H; lia].
  - destruct s as [|c s]; [reflexivity|].
    pose proof (skipn_shorter 128 c s ltac:(lia)) as Hs.
    cbn [length] in H.
    cbv beta iota delta [cut]; fold cut. cbn [length].
    rewrite IH by lia. rewrite length_skipn. cbn [length].
    set (n := S (length s)).
    assert (Hn : (1 <= n)%nat) by (unfold n; lia).
    clearbody n.
    destruct (le_gt_dec n 128) as [Hle|Hgt].
    + replace (n - 128 + 127)%nat with 127%nat by lia.
      change (127 / 128)%nat with 0%nat.
      apply (Nat.div_unique (n + 127) 128 1 (n - 1)); lia.
    + replace (n + 127)%nat with ((n - 128 + 127) + 1 * 128)%nat by lia.
      rewrite Nat.div_add by lia. lia.
Qed.

Lemma frames_length (cs : list str) :
  Forall (fun c => (length c <= 128)%nat) cs ->
  length (flat_map frame cs) = (130 * length cs)%nat.
Proof.
  induction 1 as [|c cs Hc Hcs IH]; [reflexivity|].
  cbn [flat_map]. rewrite length_app, IH, (frame_length c Hc).
  cbn [length]. lia.
Qed.

(** X9: a file of [n] bytes goes up in [ceil(n / 128)] chunk frames and
    one terminator, 130 bytes each: after the name, a fully
    acknowledged upload has sent [130 * (ceil(n / 128) + 1)] bytes. *)
Theorem upload_size (sha1 : str -> str) (fuel : nat)
  (path destination : str) (w : World) (res : str) (w1 : World)
  (content : str) (rest : list (option ascii)) :
  let dest := or_default destination (basename path) in
  await_receiver path dest w = Ok res w1 ->
  endswith res (lit "C> ") = true ->
  lookup path (files w) = Some content ->
  rx w1 = repeat (Some ACK) (S (length (chunks content))) ++ rest ->
  exists w',
    write_file sha1 fuel path destination (lit "none") w = Ok tt w' /\
    length (chunks content) = ((length content + 127) / 128)%nat /\
    length (tx w') =
      (length (tx w) + 7 + length dest + 1 +
       130 * ((length content + 127) / 128 + 1))%nat.
Proof.
  intros dest Ha He Hl Hrx.
  destruct (write_file_reaches_verify sha1 fuel path destination
              (lit "none") w res w1 content rest Ha He Hl Hrx)
    as (w3 & E & Ht & _).
  fold dest in E, Ht.
  assert (Hc : length (chunks content)
               = ((length content + 127) / 128)%nat)
    by (apply cut_count; lia).
  exists w3. split; [exact E|]. split; [exact Hc|].
  rewrite Ht, !length_app, (frames_length _ (chunks_short content)), Hc.
  cbn [length]. change (length (lit "recv()")) with 6%nat.
  change (length TERMINATOR) with 130%nat. lia.
Qed.

Lemma upload_size_witness :
  exists w',
    write_file (fun _ => []) 0 (lit "/x/f.lua") [] (lit "none")
      (fresh (feed (lit "C> " ++ repeat ACK 5))
             [(lit "/x/f.lua", repeat "x"%char 300)]) = Ok tt w' /\
    length (tx w') = (7 + 5 + 1 + 130 * 4)%nat.
Proof.
  destruct (upload_size (fun _ => []) 0 (lit "/x/f.lua") []
              (fresh (feed (lit "C> " ++ repeat ACK 5))
                     [(lit "/x/f.lua", repeat "x"%char 300)])
              (lit "C> ")
              (world_of
                 (await_receiver (lit "/x/f.lua") (lit "f.lua")
                    (fresh (feed (lit "C> " ++ repeat ACK 5))
                           [(lit "/x/f.lua", repeat "x"%char 300)]))
                 (fresh [] []))
              (repeat "x"%char 300) [Some ACK])
    as (w' & E & _ & Hlen).
  - vm_compute. reflexivity.
  - vm_compute. reflexivity.
  - vm_compute. reflexivity.
  - vm_compute. reflexivity.
  - exists w'. split; [exact E|]. rewrite Hlen. vm_compute. reflexivity.
Defined.

(** ** The verification after an upload *)

(** X10: the ['standard'] verification downloads the remote file again
    and compares; a difference is logged as an error and nothing else:
    [write_file] returns [None] in both cases. *)
Theorem verify_standard (sha1 : str -> str) (fuel : nat)
  (destination content : str) (w : World) (data : str) (w1 : World) :
  download_file fuel destination (log INFO "Verifying..." [] w)
    = Ok data w1 ->
  exists w',
    verify_upload sha1 fuel (lit "standard") destination content w
      = Ok tt w' /\
    (data = content -> w' = w1) /\
    (data <> content ->
     w' = log ERROR "Verification failed." [] w1 /\ error_logged w').
Proof.
  intros E. unfold verify_upload.
  change (str_eqb (lit "standard") (lit "standard")) with true.
  cbv beta iota. unfold bind at 1, exec at 1. unfold bind at 1. rewrite E.
  destruct (str_eqb content data) eqn:C; cbn [negb].
  - apply str_eqb_eq in C. subst data. exists w1.
    split; [reflexivity|]. split; [reflexivity|]. congruence.
  - eexists. split; [reflexivity|]. split.
    + intros ->. now rewrite str_eqb_refl in C.
    + intros _. split; [reflexivity|].
      eexists. eexists. split; reflexivity.
Qed.

Lemma verify_standard_witness :
  exists w',
    verify_upload (fun _ => []) 1 (lit "standard") (lit "f.lua")
      (lit "tale") (fresh (feed (device_response (lit "4") (lit "tail"))) [])
      = Ok tt w' /\
    error_logged w'.
Proof.
  destruct (verify_standard (fun _ => []) 1 (lit "f.lua") (lit "tale")
              (fresh (feed (device_response (lit "4") (lit "tail"))) [])
              (lit "tail")
              (world_of
                 (download_file 1 (lit "f.lua")
                    (log INFO "Verifying..." []
                       (fresh (feed (device_response (lit "4") (lit "tail")))
                              [])))
                 (fresh [] [])))
    as (w' & E & _ & H).
  - vm_compute. reflexivity.
  - exists w'. split; [exact E|]. apply H. discriminate.
Defined.

Lemma encode_non_ascii (content : str) (c : ascii) :
  In c content -> (128 <= nat_of_ascii c)%nat -> encode content = None.
Proof.
  intros Hin Hc. unfold encode.
  destruct (forallb (fun c => (nat_of_ascii c <? 128)%nat) content) eqn:F;
    [|reflexivity].
  rewrite forallb_forall in F. specialize (F c Hin).
  apply Nat.ltb_lt in F. lia.
Qed.

(** X11: the ['sha1'] verification cannot be used on a file with a byte
    above 127: once the device has answered with its hash, hashing the
    local content raises [UnicodeDecodeError] (the upload itself is
    already done by then). *)
Theorem verify_sha1_non_ascii (sha1 : str -> str) (fuel : nat)
  (destination content : str) (w : World) (r : str) (w1 : World)
  (first data : str) (more : list str) (c : ascii) :
  exchange (lit "shafile(" ++ DQ :: destination ++ DQ :: lit ")") w
    = Ok r w1 ->
  splitlines r = first :: data :: more ->
  In c content -> (128 <= nat_of_ascii c)%nat ->
  verify_upload sha1 fuel (lit "sha1") destination content w =
  Raise UnicodeDecodeError (log INFO "Remote SHA1: %s" [AStr data] w1).
Proof.
  intros E Hs Hin Hc. unfold verify_upload.
  change (str_eqb (lit "sha1") (lit "standard")) with false.
  change (str_eqb (lit "sha1") (lit "sha1")) with true.
  cbv beta iota. unfold bind at 1. rewrite E, Hs.
  unfold bind at 1, exec at 1.
  now rewrite (encode_non_ascii content c Hin Hc).
Qed.

Lemma verify_sha1_non_ascii_witness :
  exists w',
    verify_upload (fun _ => []) 0 (lit "sha1") (lit "f.bin")
      [chr_of 200]
      (fresh (feed (lit "echo" ++ [LF] ++ lit "da39" ++ [LF] ++ PROMPT)) [])
    = Raise UnicodeDecodeError w'.
Proof.
  eexists.
  apply (verify_sha1_non_ascii (fun _ => []) 0 (lit "f.bin") [chr_of 200]
           (fresh (feed (lit "echo" ++ [LF] ++ lit "da39" ++ [LF] ++ PROMPT))
                  [])
           (lit "echo" ++ [LF] ++ lit "da39" ++ [LF] ++ PROMPT)
           (world_of
              (exchange (lit "shafile(" ++ DQ :: lit "f.bin" ++ DQ :: lit ")")
                 (fresh (feed (lit "echo" ++ [LF] ++ lit "da39" ++ [LF] ++
                               PROMPT)) []))
              (fresh [] []))
           (lit "echo") (lit "da39") [PROMPT] (chr_of 200)).
  - vm_compute. reflexivity.
  - vm_compute. reflexivity.
  - left. reflexivity.
  - vm_compute. lia.
Defined.

(** X12: when the answer to [shafile] has fewer than two lines, the
    ['sha1'] verification raises [IndexError]. *)
Theorem verify_sha1_short_answer (sha1 : str -> str) (fuel : nat)
  (destination content : str) (w : World) (r : str) (w1 : World) :
  exchange (lit "shafile(" ++ DQ :: destination ++ DQ :: lit ")") w
    = Ok r w1 ->
  (length (splitlines r) < 2)%nat ->
  verify_upload sha1 fuel (lit "sha1") destination content w =
  Raise IndexError w1.
Proof.
  intros E Hs. unfold verify_upload.
  change (str_eqb (lit "sha1") (lit "standard")) with false.
  change (str_eqb (lit "sha1") (lit "sha1")) with true.
  cbv beta iota. unfold bind at 1. rewrite E.
  destruct (splitlines r) as [|x [|y t]]; try reflexivity.
  cbn [length] in Hs. lia.
Qed.

Lemma verify_sha1_short_answer_witness :
  exists w',
    verify_upload (fun _ => []) 0 (lit "sha1") (lit "f.lua") (lit "x")
      (fresh (feed PROMPT) []) = Raise IndexError w'.
Proof.
  eexists.
  apply (verify_sha1_short_answer (fun _ => []) 0 (lit "f.lua") (lit "x")
           (fresh (feed PROMPT) []) PROMPT
           (world_of
              (exchange (lit "shafile(" ++ DQ :: lit "f.lua" ++ DQ :: lit ")")
                 (fresh (feed PROMPT) []))
              (fresh [] []))).
  - vm_compute. reflexivity.
  - vm_compute. lia.
Defined.

Lemma encode_ascii (content : str) :
  Forall (fun c => (nat_of_ascii c < 128)%nat) content ->
  encode content = Some content.
Proof.
  intros H. unfold encode.
  replace (forallb (fun c => (nat_of_ascii c <? 128)%nat) content)
    with true; [reflexivity|].
  symmetry. apply forallb_forall. intros c Hc.
  apply Nat.ltb_lt. rewrite Forall_forall in H. now apply H.
Qed.

(** X13: on an ASCII file the ['sha1'] verification compares the second
    line of the device's answer with the local digest; it logs an error
    exactly when they differ, and returns [None] either way. *)
Theorem verify_sha1_compare (sha1 : str -> str) (fuel : nat)
  (destination content : str) (w : World) (r : str) (w1 : World)
  (first data : str) (more : list str) :
  exchange (lit "shafile(" ++ DQ :: destination ++ DQ :: lit ")") w
    = Ok r w1 ->
  splitlines r = first :: data :: more ->
  Forall (fun c => (nat_of_ascii c < 128)%nat) content ->
  let w2 := log INFO "Local SHA1: %s" [AStr (sha1 content)]
              (log INFO "Remote SHA1: %s" [AStr data] w1) in
  exists w',
    verify_upload sha1 fuel (lit "sha1") destination content w = Ok tt w' /\
    (data = sha1 content -> w' = w2) /\
    (data <> sha1 content ->
     w' = log ERROR "Verification failed." [] w2).
Proof.
  intros E Hs Ha w2. unfold verify_upload.
  change (str_eqb (lit "sha1") (lit "standard")) with false.
  change (str_eqb (lit "sha1") (lit "sha1")) with true.
  cbv beta iota. unfold bind at 1. rewrite E, Hs.
  unfold bind at 1, exec at 1. rewrite (encode_ascii content Ha).
  unfold bind at 1, exec at 1. fold w2.
  destruct (str_eqb data (sha1 content)) eqn:C; cbn [negb].
  - apply str_eqb_eq in C. exists w2.
    split; [reflexivity|]. split; [reflexivity|]. congruence.
  - eexists. split; [reflexivity|]. split; [|reflexivity].
    intros Heq. rewrite Heq, str_eqb_refl in C. discriminate.
Qed.

Lemma verify_sha1_compare_witness :
  exists w',
    verify_upload (fun _ => lit "da39") 0 (lit "sha1") (lit "f.lua")
      (lit "x")
      (fresh (feed (lit "echo" ++ [LF] ++ lit "da39" ++ [LF] ++ PROMPT)) [])
    = Ok tt w'.
Proof.
  destruct (verify_sha1_compare (fun _ => lit "da39") 0 (lit "f.lua")
              (lit "x")
              (fresh (feed (lit "echo" ++ [LF] ++ lit "da39" ++ [LF] ++
                            PROMPT)) [])
              (lit "echo" ++ [LF] ++ lit "da39" ++ [LF] ++ PROMPT)
              (world_of
                 (exchange
                    (lit "shafile(" ++ DQ :: lit "f.lua" ++ DQ :: lit ")")
                    (fresh (feed (lit "echo" ++ [LF] ++ lit "da39" ++ [LF] ++
                                  PROMPT)) []))
                 (fresh [] []))
              (lit "echo") (lit "da39") [PROMPT])
    as (w' & E & _).
  - vm_compute. reflexivity.
  - vm_compute. reflexivity.
  - repeat constructor.
  - exists w'. exact E.
Defined.

(** X14: the verification mode is compared literally: any mode other
    than ['standard'] and ['sha1'] (a different case, a misspelling)
    means no verification: nothing is sent, read or logged. *)
Theorem verify_unknown_mode (sha1 : str -> str) (fuel : nat)
  (verify destination content : str) (w : World) :
  verify <> lit "standard" -> verify <> lit "sha1" ->
  verify_upload sha1 fuel verify destination content w = Ok tt w.
Proof.
  intros H1 H2. unfold verify_upload.
  destruct (str_eqb verify (lit "standard")) eqn:C1;
    [apply str_eqb_eq in C1; contradiction|].
  destruct (str_eqb verify (lit "sha1")) eqn:C2;
    [apply str_eqb_eq in C2; contradiction|].
  reflexivity.
Qed.

Lemma verify_unknown_mode_witness :
  verify_upload (fun _ => []) 0 (lit "SHA1") (lit "f.lua") (lit "x")
    (fresh [] []) = Ok tt (fresh [] []).
Proof.
  apply (verify_unknown_mode (fun _ => []) 0 (lit "SHA1") (lit "f.lua")
           (lit "x") (fresh [] [])); discriminate.
Defined.

(** ** More on the download protocol *)

Lemma split_from_upto (sep : ascii) (m : nat) (rest : str) :
  forall a cur,
    ~ In sep a ->
    split_from sep (S m) cur (a ++ sep :: rest) =
    (rev cur ++ a) :: split_from sep m [] rest.
Proof.
  induction a as [|c a IH]; intros cur Hn.
  - cbn [app split_from]. rewrite Ascii.eqb_refl. now rewrite app_nil_r.
  - cbn [app split_from].
    destruct (Ascii.eqb_spec c sep) as [->|Hc].
    + elim Hn. now left.
    + rewrite IH by (intros H; apply Hn; now right).
      cbn [rev]. now rewrite <- app_assoc.
Qed.

(** A response in three parts is parsed into these parts. *)
Lemma split_response (echo sz payload : str) :
  ~ In LF echo -> ~ In LF sz ->
  split LF 2 (echo ++ LF :: sz ++ LF :: payload) = [echo; sz; payload].
Proof.
  intros He Hs. unfold split.
  rewrite split_from_upto by assumption.
  rewrite split_from_upto by assumption.
  destruct payload; reflexivity.
Qed.

(** X15: when the device answers the first request with
    [echo \n size \n payload], where [size < 256] is a decimal number,
    [download_file] returns the first [size] bytes of the payload:
    whatever follows them (the rest of the payload, the prompt) is cut
    off, and newlines inside the payload are kept. *)
Theorem download_single_response (fuel : nat) (filename : str) (w : World)
  (echo sz payload : str) (size : Z) (w' : World) :
  exchange (download_cmd filename 0 256) w
    = Ok (echo ++ LF :: sz ++ LF :: payload) w' ->
  ~ In LF echo -> ~ In LF sz ->
  int sz = Some size ->
  0 <= size < 256 ->
  download_file (S fuel) filename w =
  Ok (firstn (Z.to_nat size) payload) w'.
Proof.
  intros E He Hs Hi Hsz. unfold download_file.
  rewrite (download_loop_step fuel filename 0 [] w _ w' size payload E).
  - rewrite Z.gtb_ltb.
    destruct (Z.ltb_spec size (0 + 256)); [|lia].
    unfold slice_to. destruct (Z.ltb_spec size 0); [lia|].
    cbn [app]. rewrite firstn_firstn. f_equal. f_equal. lia.
  - exists echo, sz. split; [now apply split_response|exact Hi].
Qed.

Lemma download_single_response_witness :
  exists w',
    download_file 1 (lit "f.lua")
      (fresh (feed (lit "echo" ++ LF :: lit "5" ++ LF ::
                    (lit "a" ++ [LF] ++ lit "bcdefgh") ++ PROMPT)) [])
    = Ok (lit "a" ++ [LF] ++ lit "bcd") w'.
Proof.
  eexists.
  apply (download_single_response 0 (lit "f.lua")
           (fresh (feed (lit "echo" ++ LF :: lit "5" ++ LF ::
                         (lit "a" ++ [LF] ++ lit "bcdefgh") ++ PROMPT)) [])
           (lit "echo") (lit "5")
           ((lit "a" ++ [LF] ++ lit "bcdefgh") ++ PROMPT) 5).
  - vm_compute. reflexivity.
  - vm_compute. intuition discriminate.
  - vm_compute. intuition discriminate.
  - vm_compute. reflexivity.
  - lia.
Defined.

(** As long as the responses parse and report sizes not yet reached, the
    loop goes from one request to the next. *)
Lemma download_loop_continue (filename : str) :
  forall ds fuel i data w w1,
    exchanges (download_requests filename i (length ds)) w = Ok ds w1 ->
    continuing i ds ->
    exists data',
      download_loop (length ds + fuel) filename (256 * Z.of_nat i) data w =
      download_loop fuel filename (256 * Z.of_nat (i + length ds)) data' w1.
Proof.
  induction ds as [|d0 ds IH]; intros fuel i data w w1 He Hc.
  - cbn in He. injection He as <-. exists data.
    cbn [length]. now rewrite Nat.add_0_r.
  - cbn [length] in *. unfold download_requests in He. cbn [seq map] in He.
    apply exchanges_cons in He as (d1 & w2 & ds' & E & Er & Heq).
    injection Heq as <- <-.
    destruct Hc as [(payload & size & Hp & Hs) Hc].
    cbn [Nat.add].
    rewrite (download_loop_step _ _ _ _ _ _ _ _ _ E Hp).
    rewrite Z.gtb_ltb.
    destruct (Z.ltb_spec size (256 * Z.of_nat i + 256)); [lia|].
    replace (256 * Z.of_nat i + 256) with (256 * Z.of_nat (S i)) by lia.
    destruct (IH fuel (S i) (data ++ firstn 256 payload) w2 w1 Er Hc)
      as (data' & Hd).
    exists data'. rewrite Hd. do 2 f_equal. lia.
Qed.

(** X16: when the size line of a response is not a decimal number (the
    device prints [nil] for a file it cannot open), [download_file]
    raises [ValueError] there and returns nothing, at the first response
    as after any number of responses that let the loop go on. *)
Theorem download_size_not_a_number (fuel : nat) (filename : str)
  (w : World) (ds : list str) (w1 : World) (echo sz payload : str)
  (w' : World) :
  exchanges (download_requests filename 0 (length ds)) w = Ok ds w1 ->
  continuing 0 ds ->
  exchange (download_cmd filename (256 * Z.of_nat (length ds)) 256) w1
    = Ok (echo ++ LF :: sz ++ LF :: payload) w' ->
  ~ In LF echo -> ~ In LF sz ->
  int sz = None ->
  (length ds < fuel)%nat ->
  download_file fuel filename w = Raise ValueError w'.
Proof.
  intros He Hc E Hecho Hsz Hi Hf. unfold download_file.
  replace fuel with (length ds + S (fuel - length ds - 1))%nat by lia.
  change 0 with (256 * Z.of_nat 0).
  destruct (download_loop_continue filename ds (S (fuel - length ds - 1))
              0 [] w w1 He Hc) as (data' & Hd).
  rewrite Hd. cbn [Nat.add download_loop]. unfold bind at 1.
  rewrite E, (split_response echo sz payload Hecho Hsz), Hi. reflexivity.
Qed.

Lemma download_size_not_a_number_witness :
  exists w',
    download_file 2 (lit "f.lua")
      (fresh (feed (device_response (lit "600") (repeat "x"%char 256) ++
                    lit "echo" ++ LF :: lit "nil" ++ LF :: PROMPT)) [])
    = Raise ValueError w'.
Proof.
  eexists.
  apply (download_size_not_a_number 2 (lit "f.lua")
           (fresh (feed (device_response (lit "600") (repeat "x"%char 256) ++
                         lit "echo" ++ LF :: lit "nil" ++ LF :: PROMPT)) [])
           [device_response (lit "600") (repeat "x"%char 256)]
           (world_of
              (exchange (download_cmd (lit "f.lua") 0 256)
                 (fresh (feed (device_response (lit "600")
                                 (repeat "x"%char 256) ++
                               lit "echo" ++ LF :: lit "nil" ++ LF ::
                               PROMPT)) []))
              (fresh [] []))
           (lit "echo") (lit "nil") PROMPT).
  - vm_compute. reflexivity.
  - split; [|exact I].
    exists (repeat "x"%char 256 ++ PROMPT), 600. split; [|lia].
    exists (lit "echo"), (lit "600"). split; vm_compute; reflexivity.
  - vm_compute. reflexivity.
  - vm_compute. intuition discriminate.
  - vm_compute. intuition discriminate.
  - vm_compute. reflexivity.
  - cbn [length]. lia.
Defined.

Lemma download_requests_cons (filename : str) (i k : nat) :
  download_requests filename i (S k) =
  download_cmd filename (256 * Z.of_nat i) 256 ::
  download_requests filename (S i) k.
Proof. reflexivity. Qed.

(** Whatever the device answers, the loop only sends its requests. *)
Lemma download_loop_frame (filename : str) :
  forall fuel i data w,
    match download_loop fuel filename (256 * Z.of_nat i) data w with
    | Ok _ w' | Raise _ w' =>
        port w' = port w /\ files w' = files w /\
        exists k, (1 <= k <= fuel)%nat /\
          tx w' = tx w ++ flat_map as_line (download_requests filename i k)
    | OutOfFuel => True
    end.
Proof.
  induction fuel as [|fuel IH]; intros i data w; [exact I|].
  cbn [download_loop]. unfold bind at 1.
  destruct (exchange_spec (download_cmd filename (256 * Z.of_nat i) 256) w)
    as (d & w1 & E & Hp & Hf & Ht).
  rewrite E.
  assert (Stop : port w1 = port w /\ files w1 = files w /\
                 exists k, (1 <= k <= S fuel)%nat /\
                   tx w1 = tx w ++
                     flat_map as_line (download_requests filename i k)).
  { repeat split; auto. exists 1%nat. split; [lia|].
    rewrite download_requests_cons. cbn [flat_map download_requests seq map].
    now rewrite app_nil_r. }
  destruct (split LF 2 d) as [|x [|y [|z [|u v]]]]; try exact Stop.
  destruct (int y) as [n|]; [|exact Stop].
  destruct (256 * Z.of_nat i + 256 >? n); [exact Stop|].
  replace (256 * Z.of_nat i + 256) with (256 * Z.of_nat (S i)) by lia.
  specialize (IH (S i) (data ++ slice z 0 (Z.to_nat 256)) w1).
  destruct (download_loop fuel filename (256 * Z.of_nat (S i)) _ w1)
    as [r w'|e w'|]; auto;
    destruct IH as (Hp' & Hf' & k & Hk & Ht');
    (repeat split; [congruence|congruence|]);
    exists (S k); (split; [lia|]);
    rewrite download_requests_cons; cbn [flat_map];
    rewrite Ht', Ht; unfold as_line; now rewrite <- !app_assoc.
Qed.

Lemma download_file_sends_requests_aux (fuel : nat) (filename : str)
  (w : World) :
  match download_file fuel filename w with
  | Ok _ w' | Raise _ w' =>
      port w' = port w /\ files w' = files w /\
      exists k, (1 <= k <= fuel)%nat /\
        tx w' = tx w ++ flat_map as_line (download_requests filename 0 k)
  | OutOfFuel => True
  end.
Proof.
  unfold download_file. change 0 with (256 * Z.of_nat 0).
  apply download_loop_frame.
Qed.

(** X17: whatever the device answers, and whether [download_file]
    returns or raises, all it has sent is its read requests for the
    offsets 0, 256, 512, ... in this order, at least one and one line
    each; the port settings and the local files are untouched. *)
Theorem download_file_sends_requests (fuel : nat) (filename : str)
  (w : World) :
  match download_file fuel filename w with
  | Ok _ w' | Raise _ w' =>
      port w' = port w /\ files w' = files w /\
      exists k, (1 <= k <= fuel)%nat /\
        tx w' = tx w ++ flat_map as_line (download_requests filename 0 k)
  | OutOfFuel => True
  end.
Proof. apply download_file_sends_requests_aux. Qed.

Lemma lookup_other (p k v : str) (m : list (str * str)) :
  p <> k -> lookup p ((k, v) :: m) = lookup p m.
Proof.
  intros H. cbn [lookup].
  destruct (str_eqb p k) eqn:C; [|reflexivity].
  apply str_eqb_eq in C. contradiction.
Qed.

(** X18: [read_file] writes the local file only once the whole download
    has succeeded, and writes what [download_file] returned: then the
    destination holds exactly that data, every other local file is as
    before, and nothing more is sent or read.  When the download raises,
    [read_file] raises the same exception and no local file has been
    created or changed; the same holds when the destination cannot be
    opened. *)
Theorem read_file_files (fuel : nat) (filename destination : str)
  (w : World) :
  let dest := or_default destination filename in
  let w0 := log INFO "Transfering %s to %s" [AStr filename; AStr dest] w in
  (forall data w1,
     download_file fuel filename w0 = Ok data w1 ->
     dest <> [] ->
     exists w',
       read_file fuel filename destination w = Ok tt w' /\
       files w' = (dest, data) :: files w /\
       lookup dest (files w') = Some data /\
       (forall p, p <> dest -> lookup p (files w') = lookup p (files w)) /\
       tx w' = tx w1 /\ rx w' = rx w1 /\ port w' = port w) /\
  (forall data w1,
     download_file fuel filename w0 = Ok data w1 ->
     dest = [] ->
     read_file fuel filename destination w = Raise IOError w1 /\
     files w1 = files w) /\
  (forall e w1,
     download_file fuel filename w0 = Raise e w1 ->
     read_file fuel filename destination w = Raise e w1 /\
     files w1 = files w).
Proof.
  intros dest w0.
  assert (R : read_file fuel filename destination w =
              bind (download_file fuel filename) (write_local dest) w0)
    by reflexivity.
  pose proof (download_file_sends_requests_aux fuel filename w0) as F.
  split; [|split].
  - intros data w1 E Hne. rewrite R. unfold bind. rewrite E in *.
    destruct F as (Hp & Hf & _). cbn [files port log] in Hf, Hp.
    unfold write_local. destruct dest as [|c r] eqn:D; [congruence|].
    eexists. split; [reflexivity|]. cbn [files tx rx port].
    rewrite Hf. repeat split; auto.
    + apply lookup_head.
    + intros p Hp'. now apply lookup_other.
  - intros data w1 E He. rewrite R. unfold bind. rewrite E in *.
    destruct F as (_ & Hf & _). cbn [files log] in Hf.
    rewrite He. split; [reflexivity|exact Hf].
  - intros e w1 E. rewrite R. unfold bind. rewrite E in *.
    destruct F as (_ & Hf & _). cbn [files log] in Hf.
    split; [reflexivity|exact Hf].
Qed.

Lemma read_file_files_witness :
  exists w',
    read_file 1 (lit "init.lua") (lit "copy.lua")
      (fresh (feed (device_response (lit "4") (lit "tail")))
             [(lit "other.lua", lit "kept")])
    = Ok tt w' /\
    files w' = [(lit "copy.lua", lit "tail"); (lit "other.lua", lit "kept")].
Proof.
  destruct (read_file_files 1 (lit "init.lua") (lit "copy.lua")
              (fresh (feed (device_response (lit "4") (lit "tail")))
                     [(lit "other.lua", lit "kept")]))
    as (H & _ & _).
  destruct (H (lit "tail")
              (world_of
                 (download_file 1 (lit "init.lua")
                    (log INFO "Transfering %s to %s"
                       [AStr (lit "init.lua"); AStr (lit "copy.lua")]
                       (fresh (feed (device_response (lit "4") (lit "tail")))
                              [(lit "other.lua", lit "kept")])))
                 (fresh [] [])))
    as (w' & E & Hf & _).
  - vm_compute. reflexivity.
  - discriminate.
  - exists w'. split; [exact E|exact Hf].
Defined.

(** ** Line-oriented transfers: [write_lines], [prepare], [exec_file] *)

Lemma replace_cr (s : str) :
  replace [CR] [] s = filter (fun c => negb (Ascii.eqb c CR)) s.
Proof.
  unfold replace. induction s as [|c s IH]; [reflexivity|].
  cbn [replace_from startswith filter length Nat.sub].
  replace (startswith s []) with true by (destruct s; reflexivity).
  rewrite andb_true_r.
  destruct (Ascii.eqb c CR); cbn [negb app]; now rewrite IH.
Qed.

Lemma split_all_lines (sep : ascii) :
  forall s cur,
    flat_map (fun l => l ++ [sep]) (split_all_from sep cur s) =
    rev cur ++ s ++ [sep].
Proof.
  induction s as [|c s IH]; intros cur.
  - cbn. now rewrite app_nil_r.
  - cbn [split_all_from]. destruct (Ascii.eqb_spec c sep) as [->|Hc].
    + cbn [flat_map]. rewrite IH. cbn [rev app].
      now rewrite <- !app_assoc.
    + rewrite IH. cbn [rev]. now rewrite <- !app_assoc.
Qed.

Lemma exchange_each_spec :
  forall lines w,
    exists w',
      exchange_each lines w = Ok tt w' /\
      tx w' = tx w ++ flat_map as_line lines /\
      port w' = port w /\ files w' = files w.
Proof.
  induction lines as [|l lines IH]; intros w.
  - exists w. cbn. rewrite app_nil_r. auto.
  - cbn [exchange_each]. unfold bind at 1.
    destruct (exchange_spec l w) as (d & w1 & E & Hp & Hf & Ht).
    rewrite E. destruct (IH w1) as (w' & E' & Ht' & Hp' & Hf').
    exists w'. rewrite E'. repeat split; try congruence.
    rewrite Ht', Ht. cbn [flat_map]. unfold as_line.
    now rewrite <- !app_assoc.
Qed.

Lemma exchange_each_exchanges :
  forall lines w,
    exchange_each lines w =
    match exchanges lines w with
    | Ok _ w' => Ok tt w'
    | Raise e w' => Raise e w'
    | OutOfFuel => OutOfFuel
    end.
Proof.
  induction lines as [|l lines IH]; intros w; [reflexivity|].
  cbn [exchange_each exchanges]. unfold bind.
  destruct (exchange l w) as [d w1|e w1|]; try reflexivity.
  rewrite IH.
  destruct (exchanges lines w1) as [ds w2|e w2|]; reflexivity.
Qed.

Lemma exchanges_length :
  forall reqs w ds w',
    exchanges reqs w = Ok ds w' -> length ds = length reqs.
Proof.
  induction reqs as [|q reqs IH]; intros w ds w' H.
  - cbn in H. now injection H as <- _.
  - apply exchanges_cons in H as (d & w1 & ds' & _ & Er & ->).
    cbn [length]. f_equal. now apply (IH w1 ds' w').
Qed.

Lemma split_all_from_count (sep : ascii) :
  forall s cur,
    length (split_all_from sep cur s) = S (count_occ ascii_dec s sep).
Proof.
  induction s as [|c s IH]; intros cur; [reflexivity|].
  cbn [split_all_from]. destruct (Ascii.eqb_spec c sep) as [->|Hc].
  - rewrite count_occ_cons_eq by reflexivity. cbn [length]. now rewrite IH.
  - rewrite count_occ_cons_neq by assumption. apply IH.
Qed.

Lemma split_all_from_chars (sep : ascii) (P : ascii -> Prop) :
  forall s cur,
    Forall P cur -> Forall P s ->
    Forall (Forall P) (split_all_from sep cur s).
Proof.
  induction s as [|c s IH]; intros cur Hc Hs.
  - cbn. constructor; [|constructor]. now apply Forall_rev.
  - inversion Hs as [|? ? Hc0 Hs0]; subst. cbn [split_all_from].
    destruct (Ascii.eqb c sep).
    + constructor; [now apply Forall_rev|]. apply IH; auto.
    + apply IH; auto.
Qed.

Lemma split_all_from_nosep (sep : ascii) :
  forall s cur,
    ~ In sep cur ->
    Forall (fun l => ~ In sep l) (split_all_from sep cur s).
Proof.
  induction s as [|c s IH]; intros cur Hc.
  - cbn. constructor; [|constructor].
    intros H. apply Hc. now apply in_rev.
  - cbn [split_all_from]. destruct (Ascii.eqb_spec c sep) as [->|Hne].
    + constructor; [|apply IH; auto].
      intros H. apply Hc. now apply in_rev.
    + apply IH. intros [H|H]; [congruence|auto].
Qed.

Lemma count_lf_without_cr (data : str) :
  count_occ ascii_dec (filter (fun c => negb (Ascii.eqb c CR)) data) LF =
  count_occ ascii_dec data LF.
Proof.
  induction data as [|c data IH]; [reflexivity|].
  cbn [filter]. destruct (Ascii.eqb_spec c CR) as [->|Hc]; cbn [negb].
  - rewrite count_occ_cons_neq by discriminate. exact IH.
  - destruct (ascii_dec c LF) as [->|Hl].
    + rewrite !count_occ_cons_eq by reflexivity. now rewrite IH.
    + rewrite !count_occ_cons_neq by assumption. exact IH.
Qed.

(** X19: [write_lines] drops every carriage return from its data, cuts
    what is left at the newlines and makes one [exchange] per line, in
    order and empty lines included, so one more exchange than the data
    has newlines; the responses are dropped.  In all it has sent the
    data without carriage returns plus one final newline; it never
    raises and leaves the port settings and the local files alone. *)
Theorem write_lines_sends (data : str) (w : World) :
  exists lines ds w',
    Forall (fun l => ~ In LF l /\ ~ In CR l) lines /\
    flat_map as_line lines =
      filter (fun c => negb (Ascii.eqb c CR)) data ++ [LF] /\
    length lines = S (count_occ ascii_dec data LF) /\
    exchanges lines w = Ok ds w' /\
    length ds = length lines /\
    write_lines data w = Ok tt w' /\
    tx w' = tx w ++ filter (fun c => negb (Ascii.eqb c CR)) data ++ [LF] /\
    port w' = port w /\ files w' = files w.
Proof.
  set (clean := filter (fun c => negb (Ascii.eqb c CR)) data).
  set (lines := split_all LF clean).
  assert (Hw : write_lines data w = exchange_each lines w).
  { unfold write_lines, lines, clean. now rewrite replace_cr. }
  destruct (exchange_each_spec lines w) as (w' & E & Ht & Hp & Hf).
  pose proof (exchange_each_exchanges lines w) as X. rewrite E in X.
  destruct (exchanges lines w) as [ds w2|e w2|] eqn:Ex; try discriminate.
  injection X as <-.
  assert (Hl : flat_map as_line lines = clean ++ [LF]).
  { unfold lines, split_all, as_line. now rewrite split_all_lines. }
  exists lines, ds, w'. repeat split; auto.
  - apply Forall_forall. intros l Hin. split.
    + pose proof (split_all_from_nosep LF clean [] (fun H => H)) as N.
      rewrite Forall_forall in N. now apply N.
    + assert (C : Forall (fun c => c <> CR) clean).
      { apply Forall_forall. intros c Hc. unfold clean in Hc.
        apply filter_In in Hc as [_ Hc]. intros ->.
        now rewrite Ascii.eqb_refl in Hc. }
      pose proof (split_all_from_chars LF (fun c => c <> CR) clean []
                    (Forall_nil _) C) as N.
      rewrite Forall_forall in N. specialize (N l Hin).
      rewrite Forall_forall in N. intros H. now apply (N CR H).
  - unfold lines, split_all. rewrite split_all_from_count.
    unfold clean. now rewrite count_lf_without_cr.
  - now apply (exchanges_length lines w ds w').
  - rewrite Hw. exact E.
  - now rewrite Ht, Hl.
Qed.

Section PrepareProperties.

Variable SAVE_LUA : str.

Lemma prepare_loop_spec :
  forall lines w,
    exists w' k,
      prepare_loop SAVE_LUA lines w = Ok tt w' /\
      tx w' =
        tx w ++
        flat_map as_line
          (firstn k (filter (fun l => negb (len l =? 0))
                            (map compact_line lines))) /\
      port w' = port w /\ files w' = files w.
Proof.
  induction lines as [|line lines IH]; intros w.
  - exists w, 0%nat. cbn. rewrite app_nil_r. auto.
  - cbn [prepare_loop map filter].
    destruct (len (compact_line line) =? 0); cbn [negb].
    + apply IH.
    + unfold bind at 1.
      destruct (exchange_spec (compact_line line) w)
        as (d & w1 & E & Hp & Hf & Ht).
      rewrite E.
      destruct (contains (lit "unexpected") d || (len SAVE_LUA + 10 <? len d)).
      * eexists. exists 1%nat. split; [reflexivity|]. wsimpl.
        repeat split; auto. rewrite Ht. cbn [firstn flat_map].
        unfold as_line. now rewrite app_nil_r.
      * destruct (IH w1) as (w' & k & E' & Ht' & Hp' & Hf').
        exists w', (S k). rewrite E'. repeat split; try congruence.
        rewrite Ht', Ht. cbn [firstn flat_map]. unfold as_line.
        now rewrite <- !app_assoc.
Qed.

(** The loop in terms of the exchanges it makes: all the responses but
    the last are accepted, the last one is rejected. *)
Lemma prepare_loop_rejected :
  forall lines good d w w1,
    exchanges
      (firstn (S (length good))
         (filter (fun l => negb (len l =? 0)) (map compact_line lines))) w
      = Ok (good ++ [d]) w1 ->
    Forall (fun g => rejected SAVE_LUA g = false) good ->
    rejected SAVE_LUA d = true ->
    prepare_loop SAVE_LUA lines w =
    Ok tt (log_quoted ERROR "error in save_lua " "" [AStr d] w1).
Proof.
  induction lines as [|line lines IH]; intros good d w w1 He Hg Hd.
  - cbn in He. injection He as He _. now destruct good.
  - cbn [prepare_loop map filter] in *.
    destruct (len (compact_line line) =? 0); cbn [negb] in *.
    + now apply (IH good).
    + cbn [firstn] in He.
      apply exchanges_cons in He as (d0 & w2 & ds & E & Er & Heq).
      unfold bind at 1. rewrite E.
      destruct good as [|g good]; cbn [app length] in *.
      * injection Heq as <- <-. cbn in Er. injection Er as <-.
        unfold rejected in Hd. rewrite Hd. reflexivity.
      * injection Heq as <- <-. inversion Hg as [|? ? Hg1 Hg2]; subst.
        unfold rejected in Hg1. rewrite Hg1.
        now apply (IH good).
Qed.

Lemma prepare_loop_accepted :
  forall lines ds w w1,
    exchanges
      (filter (fun l => negb (len l =? 0)) (map compact_line lines)) w
      = Ok ds w1 ->
    Forall (fun g => rejected SAVE_LUA g = false) ds ->
    prepare_loop SAVE_LUA lines w = Ok tt w1.
Proof.
  induction lines as [|line lines IH]; intros ds w w1 He Hg.
  - cbn in He. now injection He as _ <-.
  - cbn [prepare_loop map filter] in *.
    destruct (len (compact_line line) =? 0); cbn [negb] in *.
    + now apply (IH ds).
    + apply exchanges_cons in He as (d0 & w2 & ds' & E & Er & ->).
      unfold bind at 1. rewrite E.
      inversion Hg as [|? ? Hg1 Hg2]; subst.
      unfold rejected in Hg1. rewrite Hg1. now apply (IH ds').
Qed.

Lemma filter_nonempty (ls : list str) :
  Forall (fun l => l <> [])
         (filter (fun l => negb (len l =? 0)) ls).
Proof.
  apply Forall_forall. intros l Hl. apply filter_In in Hl as [_ Hl].
  intros ->. discriminate.
Qed.

(** X20: [prepare] never raises and never sends an empty line: what it
    sends is, in order, the first lines of the script after the speed is
    substituted, carriage returns are dropped and each line is stripped
    and compacted, one line per [exchange]. *)
Theorem prepare_sends_script_lines (w : World) :
  exists w' k,
    prepare SAVE_LUA w = Ok tt w' /\
    tx w' = tx w ++ flat_map as_line (firstn k (script_lines SAVE_LUA w)) /\
    Forall (fun l => l <> []) (script_lines SAVE_LUA w) /\
    port w' = port w /\ files w' = files w.
Proof.
  unfold prepare, bind, exec.
  match goal with |- context [prepare_loop _ ?ls ?v] =>
    destruct (prepare_loop_spec ls v) as (w' & k & E & Ht & Hp & Hf) end.
  exists w', k. cbn [port log] in *. rewrite E.
  repeat split; auto. apply filter_nonempty.
Qed.

(** X21: [prepare] goes through the script as long as the responses are
    accepted, and gives up at the first one that contains ['unexpected']
    or is more than 10 characters longer than the script: it logs that
    response as an error and sends no further line.  With every
    response accepted it sends the whole script and logs no error. *)
Theorem prepare_stops_when_rejected (w : World) (good : list str)
  (d : str) (w1 : World) :
  let w0 := log INFO "Preparing esp for transfer." [] w in
  (exchanges (firstn (S (length good)) (script_lines SAVE_LUA w)) w0
     = Ok (good ++ [d]) w1 ->
   Forall (fun g => rejected SAVE_LUA g = false) good ->
   rejected SAVE_LUA d = true ->
   prepare SAVE_LUA w =
     Ok tt (log_quoted ERROR "error in save_lua " "" [AStr d] w1)) /\
  (exchanges (script_lines SAVE_LUA w) w0 = Ok good w1 ->
   Forall (fun g => rejected SAVE_LUA g = false) good ->
   prepare SAVE_LUA w = Ok tt w1).
Proof.
  intros w0. split.
  - intros He Hg Hd. unfold prepare, bind, exec. fold w0.
    now apply (prepare_loop_rejected _ good).
  - intros He Hg. unfold prepare, bind, exec. fold w0.
    now apply (prepare_loop_accepted _ good).
Qed.

End PrepareProperties.

Lemma prepare_stops_when_rejected_witness :
  exists w',
    prepare (lit "a = 1" ++ [LF] ++ lit "b = 2")
      (fresh (feed (lit "stdin:1: unexpected symbol" ++ PROMPT)) [])
    = Ok tt w' /\
    tx w' = lit "a=1" ++ [LF].
Proof.
  eexists. split.
  - apply (proj1 (prepare_stops_when_rejected
                    (lit "a = 1" ++ [LF] ++ lit "b = 2")
                    (fresh (feed (lit "stdin:1: unexpected symbol" ++ PROMPT))
                           [])
                    [] (lit "stdin:1: unexpected symbol" ++ PROMPT)
                    (world_of
                       (exchange (lit "a=1")
                          (log INFO "Preparing esp for transfer." []
                             (fresh (feed (lit "stdin:1: unexpected symbol"
                                           ++ PROMPT)) [])))
                       (fresh [] [])))).
    + vm_compute. reflexivity.
    + constructor.
    + vm_compute. reflexivity.
  - vm_compute. reflexivity.
Defined.

Lemma log_lines_frame :
  forall lines w,
    port (log_lines lines w) = port w /\
    rx (log_lines lines w) = rx w /\
    tx (log_lines lines w) = tx w /\
    files (log_lines lines w) = files w.
Proof.
  induction lines as [|l lines IH]; intros w; [cbn; auto|].
  cbn [log_lines]. destruct (IH (log_msg INFO l w)) as (H1 & H2 & H3 & H4).
  cbn [port rx tx files log_msg] in *. auto.
Qed.

Lemma exec_loop_frame :
  forall lines res w,
    match exec_loop lines res w with
    | Ok _ w' =>
        tx w' = tx w ++ flat_map as_line (map (rstrip_chars [CR; LF]) lines)
        /\ port w' = port w /\ files w' = files w
    | Raise e w' =>
        e = IndexError /\ port w' = port w /\ files w' = files w /\
        exists k, (1 <= k <= length lines)%nat /\
          tx w' = tx w ++
            flat_map as_line (firstn k (map (rstrip_chars [CR; LF]) lines))
    | OutOfFuel => False
    end.
Proof.
  induction lines as [|line lines IH]; intros res w.
  - cbn. rewrite app_nil_r. auto.
  - cbn [exec_loop map]. unfold bind at 1.
    destruct (exchange_spec (rstrip_chars [CR; LF] line) w)
      as (d & w1 & E & Hp & Hf & Ht).
    rewrite E.
    destruct (pop (splitlines (res ++ d))) as [[res' retlines]|].
    + unfold bind at 1, exec at 1.
      destruct (log_lines_frame retlines w1) as (Lp & _ & Lt & Lf).
      specialize (IH res' (log_lines retlines w1)).
      destruct (exec_loop lines res' (log_lines retlines w1))
        as [r w'|e w'|]; [| |exact IH].
      * destruct IH as (Ht' & Hp' & Hf').
        repeat split; try congruence.
        rewrite Ht', Lt, Ht. cbn [flat_map]. unfold as_line.
        now rewrite <- !app_assoc.
      * destruct IH as (He & Hp' & Hf' & k & Hk & Ht').
        repeat split; try congruence.
        exists (S k). cbn [length]. split; [lia|].
        rewrite Ht', Lt, Ht. cbn [firstn flat_map]. unfold as_line.
        now rewrite <- !app_assoc.
    + cbn [raise]. unfold raise. repeat split; auto.
      exists 1%nat. cbn [length]. split; [lia|].
      rewrite Ht. cbn [firstn flat_map]. unfold as_line.
      now rewrite app_nil_r.
Qed.

Lemma lstrip_chars_incl (chars : str) (x : ascii) :
  forall s, In x (lstrip_chars chars s) -> In x s.
Proof.
  induction s as [|c s IH]; [auto|].
  cbn [lstrip_chars]. destruct (existsb (Ascii.eqb c) chars); auto.
  intros H. right. now apply IH.
Qed.

Lemma lines_from_shape :
  forall s cur,
    ~ In LF cur ->
    Forall (fun l => exists pre, ~ In LF pre /\ (l = pre \/ l = pre ++ [LF]))
           (lines_from cur s).
Proof.
  induction s as [|c s IH]; intros cur Hc.
  - cbn [lines_from]. destruct cur as [|x cur]; constructor; [|constructor].
    exists (rev (x :: cur)). split; [|now left].
    intros H. apply Hc. now apply in_rev.
  - cbn [lines_from]. destruct (Ascii.eqb_spec c LF) as [->|Hne].
    + constructor; [|apply IH; auto].
      exists (rev cur). split; [|right; reflexivity].
      intros H. apply Hc. now apply in_rev.
    + apply IH. intros [H|H]; [congruence|auto].
Qed.

Lemma rstrip_line_no_newline (pre l : str) :
  ~ In LF pre -> l = pre \/ l = pre ++ [LF] ->
  ~ In LF (rstrip_chars [CR; LF] l).
Proof.
  intros Hp Hl H. unfold rstrip_chars in H. apply in_rev in H.
  destruct Hl as [->| ->].
  - apply lstrip_chars_incl in H. apply Hp. now apply in_rev.
  - rewrite rev_app_distr in H. cbn [rev app lstrip_chars] in H.
    change (existsb (Ascii.eqb LF) [CR; LF]) with true in H.
    apply lstrip_chars_incl in H. apply Hp. now apply in_rev.
Qed.

(** X22: [exec_file] on a local file that does not exist raises
    [IOError] before anything is sent to the device. *)
Theorem exec_file_missing (path : str) (w : World) :
  lookup path (files w) = None ->
  exists w',
    exec_file path w = Raise IOError w' /\
    tx w' = tx w /\ rx w' = rx w /\ files w' = files w.
Proof.
  intros H. unfold exec_file, bind at 1, exec at 1.
  unfold bind at 1, read_local. cbn [files log]. rewrite H.
  eexists. split; [reflexivity|]. cbn [tx rx files log]. auto.
Qed.

Lemma exec_file_missing_witness :
  exists w',
    exec_file (lit "/x/none.lua") (fresh (feed PROMPT) [])
      = Raise IOError w' /\ tx w' = [].
Proof.
  destruct (exec_file_missing (lit "/x/none.lua") (fresh (feed PROMPT) []))
    as (w' & E & Ht & _).
  - reflexivity.
  - exists w'. split; [exact E|exact Ht].
Defined.

(** X23: [exec_file] sends the file line by line: each line, without
    its trailing carriage returns and newlines, then one newline; so no
    command line holds a newline of its own.  When it returns, every
    line has been sent; the only exception it can raise after opening
    the file is [IndexError] (an exchange that leaves no line at all),
    and then the lines up to that one have been sent.  The port
    settings and the local files are not changed. *)
Theorem exec_file_sends_lines (path : str) (w : World) (content : str) :
  lookup path (files w) = Some content ->
  Forall (fun l => ~ In LF l) (command_lines content) /\
  match exec_file path w with
  | Ok _ w' =>
      tx w' = tx w ++ flat_map as_line (command_lines content) /\
      port w' = port w /\ files w' = files w
  | Raise e w' =>
      e = IndexError /\ port w' = port w /\ files w' = files w /\
      exists k, (1 <= k <= length (command_lines content))%nat /\
        tx w' = tx w ++ flat_map as_line (firstn k (command_lines content))
  | OutOfFuel => False
  end.
Proof.
  intros H. split.
  - unfold command_lines, file_lines. apply Forall_map.
    eapply Forall_impl; [|apply (lines_from_shape content []); auto].
    intros l (pre & Hp & Hl). now apply (rstrip_line_no_newline pre).
  - unfold exec_file, bind at 1, exec at 1.
    unfold bind at 1, read_local. cbn [files log]. rewrite H.
    unfold bind at 1.
    pose proof (exec_loop_frame (file_lines content) PROMPT
                  (log INFO "Execute %s" [AStr (basename path)] w)) as F.
    destruct (exec_loop (file_lines content) PROMPT _) as [r w'|e w'|];
      [| |exact F].
    + destruct F as (Ht & Hp & Hf). unfold exec.
      cbn [tx port files log log_msg] in *. auto.
    + destruct F as (He & Hp & Hf & k & Hk & Ht).
      unfold command_lines. rewrite length_map.
      cbn [tx port files log] in *. repeat split; auto.
      exists k. auto.
Qed.

Lemma exec_file_sends_lines_witness :
  exists w',
    exec_file (lit "s.lua")
      (fresh (feed (lit "print(1)" ++ [CR; LF] ++ lit "1" ++ [CR; LF] ++
                    PROMPT ++ lit "print(2)" ++ [CR; LF] ++ lit "2" ++
                    [CR; LF] ++ PROMPT))
             [(lit "s.lua",
               lit "print(1)" ++ [CR; LF] ++ lit "print(2)")])
    = Ok tt w' /\
    tx w' = lit "print(1)" ++ [LF] ++ lit "print(2)" ++ [LF].
Proof.
  pose proof (exec_file_sends_lines (lit "s.lua")
                (fresh (feed (lit "print(1)" ++ [CR; LF] ++ lit "1" ++
                              [CR; LF] ++ PROMPT ++ lit "print(2)" ++
                              [CR; LF] ++ lit "2" ++ [CR; LF] ++ PROMPT))
                       [(lit "s.lua",
                         lit "print(1)" ++ [CR; LF] ++ lit "print(2)")])
                (lit "print(1)" ++ [CR; LF] ++ lit "print(2)")
                eq_refl) as [_ H].
  destruct (exec_file (lit "s.lua") _) as [[] w'|e w'|] eqn:E.
  - exists w'. split; [reflexivity|]. destruct H as (Ht & _).
    rewrite Ht. vm_compute. reflexivity.
  - exfalso. vm_compute in E. discriminate.
  - contradiction.
Defined.

(** ** [exchange] and the constructor *)



